(** * SharedDecoderManager: arbitration of one decoder among several proxies

    A shallow embedding of dom/media/platforms/SharedDecoderManager.cpp.

    The manager, the event router (SharedDecoderCallback) and the proxies
    are translated method by method.  The platform decoder and the platform
    decoder module are interfaces in the source (MediaDataDecoder,
    PlatformDecoderModule); here they are type classes, and every statement
    is proved for an arbitrary implementation of them.

    Every method runs in a small monad over the manager's fields that
      - collects, in order, the calls that leave the manager (requests to
        the decoder, to the factory and to the task queue, deliveries to a
        consumer's callback, settlement of the shared init promise);
      - can [Hang] (the monitor wait of SetIdle is never woken);
      - can [Fault] (a null pointer is dereferenced).

    Callbacks that the decoder issues before one of its methods returns are
    part of the decoder's reply.  Callbacks that its task queue issues while
    the caller is parked on the monitor are an explicit argument [w] of the
    methods that can park. *)

From Stdlib Require Import List Bool Arith ZArith Lia.
From Stdlib Require String.
Import String.StringSyntax.
Delimit Scope string_scope with string.
Import ListNotations.

Set Implicit Arguments.

(** ** Plain data *)

Inductive nsresult : Type :=
| NS_OK
| NS_ERROR_FAILURE.

Definition NS_SUCCEEDED (rv : nsresult) : bool :=
  match rv with
  | NS_OK => true
  | NS_ERROR_FAILURE => false
  end.

(** TrackInfo::TrackType *)
Inductive TrackType : Type :=
| kUndefinedTrack
| kAudioTrack
| kVideoTrack
| kTextTrack.

(** MediaDataDecoder::DecoderFailureReason *)
Inductive DecoderFailureReason : Type :=
| INIT_ERROR
| CANCELED.

(** Objects the manager only passes along are known by their address. *)
Definition MediaData := nat.
Definition MediaRawData := nat.
Definition VideoInfo := nat.
Definition LayersBackend := nat.
Definition ImageContainer := nat.

(** A consumer's MediaDataDecoderCallback, known by its address. *)
Definition MediaDataDecoderCallback := nat.

(** The five notifications of MediaDataDecoderCallback. *)
Inductive Event : Type :=
| EvOutput (aData : MediaData)
| EvError
| EvInputExhausted
| EvDrainComplete
| EvReleaseMediaResources.

Definition is_DrainComplete (e : Event) : bool :=
  match e with
  | EvDrainComplete => true
  | _ => false
  end.

(** How the promise of MediaDataDecoder::Init settles. *)
Inductive InitOutcome : Type :=
| Resolve (aType : TrackType)
| Reject (aReason : DecoderFailureReason).

(** What InitDecoder hands back: the promise kept in mDecoderInitPromise,
    still pending, or a promise created already settled. *)
Inductive InitPromise : Type :=
| FromHolder
| CreateAndResolve (aType : TrackType).

(** The methods of MediaDataDecoder that return nsresult. *)
Inductive Request : Type :=
| RInit
| RInput (aSample : MediaRawData)
| RFlush
| RDrain
| RShutdown.

(** Calls that leave the manager, in the order they are made. *)
Inductive Action : Type :=
| ToDecoder (r : Request)
| ToFactory (aConfig : VideoInfo) (aLayersBackend : LayersBackend)
            (aImageContainer : ImageContainer)
| ToSink (cb : MediaDataDecoderCallback) (e : Event)
| InitPromiseSettled (o : InitOutcome)
| TaskQueueShutdown.

Definition is_ToDecoder (a : Action) : bool :=
  match a with
  | ToDecoder _ => true
  | _ => false
  end.

(** A SharedDecoderProxy*.  The proxy's only field besides mManager is
    mCallback, set by the constructor and never written again, so a pointer
    is modelled as the address together with the callback stored there.
    Pointers are compared by address. *)
Record SharedDecoderProxy : Type := {
  addr : nat;
  mCallback : MediaDataDecoderCallback
}.

Definition same_proxy (p q : SharedDecoderProxy) : bool :=
  addr p =? addr q.

(** [mActiveProxy == aProxy] for a possibly null left-hand side. *)
Definition is_active (a : option SharedDecoderProxy) (p : SharedDecoderProxy)
  : bool :=
  match a with
  | Some q => same_proxy q p
  | None => false
  end.

(** ** The external interfaces *)

(** What one call into the decoder produces: the status it returns, the
    callbacks it issues before returning, and the decoder afterwards. *)
Record Reply (D : Type) : Type := {
  rv : nsresult;
  now : list Event;
  next : D
}.

Class MediaDataDecoder (D : Type) : Type := {
  Init_ : D -> InitOutcome * D;
  Input_ : MediaRawData -> D -> Reply D;
  Flush_ : D -> Reply D;
  Drain_ : D -> Reply D;
  Shutdown_ : D -> Reply D;
  IsHardwareAccelerated_ : D -> bool
}.

Class PlatformDecoderModule (P D : Type) : Type := {
  CreateDecoder : P -> VideoInfo -> LayersBackend -> ImageContainer -> option D
}.

(** ** The promise holders *)

(** Modelled from the spec: MediaPromiseHolder is declared outside the
    given sources.  The holder of the shared init future is kept as "it
    holds a pending promise": Ensure makes it true and hands the promise
    out, ResolveIfExists and RejectIfExists settle that promise and make it
    false. *)
Definition MediaPromiseHolder : Type := bool.

(** Modelled from the spec: MediaPromiseRequestHolder is declared outside
    the given sources.  Only one init request may be in flight; the holder
    is kept as the outcome which the decoder's init in flight will deliver
    to the callbacks chained on it, if there is one.  Begin fills it (and
    is a fault when it is filled already), Complete and DisconnectIfExists
    empty it. *)
Definition MediaPromiseRequestHolder : Type := option InitOutcome.

(** ** Outcomes and the monad *)

Inductive Result (A : Type) : Type :=
| Ok (a : A)
| Hang
| Fault.

Arguments Hang {A}.
Arguments Fault {A}.

Section Model.

Context {D P : Type}.
Context {decoder : MediaDataDecoder D}.
Context {pdm : PlatformDecoderModule P D}.

(** The fields of SharedDecoderManager.  mTaskQueue is kept as "is it
    non-null"; mCallback (the router) and mMonitor have no state of their
    own. *)
Record SharedDecoderManager : Type := {
  mDecoder : option D;
  mPDM : option P;
  mLayersBackend : LayersBackend;
  mImageContainer : ImageContainer;
  mTaskQueue : bool;
  mActiveProxy : option SharedDecoderProxy;
  mActiveCallback : option MediaDataDecoderCallback;
  mInit : bool;
  mWaitForInternalDrain : bool;
  mDecoderInitPromise : MediaPromiseHolder;
  mDecoderInitPromiseRequest : MediaPromiseRequestHolder
}.

(** SharedDecoderManager::SharedDecoderManager *)
Definition SharedDecoderManager_new : SharedDecoderManager := {|
  mDecoder := None;
  mPDM := None;
  mLayersBackend := 0;
  mImageContainer := 0;
  mTaskQueue := true;
  mActiveProxy := None;
  mActiveCallback := None;
  mInit := false;
  mWaitForInternalDrain := false;
  mDecoderInitPromise := false;
  mDecoderInitPromiseRequest := None
|}.

Definition set_mDecoder (v : option D) (m : SharedDecoderManager) :=
  {| mDecoder := v; mPDM := mPDM m; mLayersBackend := mLayersBackend m;
     mImageContainer := mImageContainer m; mTaskQueue := mTaskQueue m;
     mActiveProxy := mActiveProxy m; mActiveCallback := mActiveCallback m;
     mInit := mInit m; mWaitForInternalDrain := mWaitForInternalDrain m;
     mDecoderInitPromise := mDecoderInitPromise m;
     mDecoderInitPromiseRequest := mDecoderInitPromiseRequest m |}.

Definition set_mPDM (v : option P) (m : SharedDecoderManager) :=
  {| mDecoder := mDecoder m; mPDM := v; mLayersBackend := mLayersBackend m;
     mImageContainer := mImageContainer m; mTaskQueue := mTaskQueue m;
     mActiveProxy := mActiveProxy m; mActiveCallback := mActiveCallback m;
     mInit := mInit m; mWaitForInternalDrain := mWaitForInternalDrain m;
     mDecoderInitPromise := mDecoderInitPromise m;
     mDecoderInitPromiseRequest := mDecoderInitPromiseRequest m |}.

Definition set_layers (lb : LayersBackend) (ic : ImageContainer)
  (m : SharedDecoderManager) :=
  {| mDecoder := mDecoder m; mPDM := mPDM m; mLayersBackend := lb;
     mImageContainer := ic; mTaskQueue := mTaskQueue m;
     mActiveProxy := mActiveProxy m; mActiveCallback := mActiveCallback m;
     mInit := mInit m; mWaitForInternalDrain := mWaitForInternalDrain m;
     mDecoderInitPromise := mDecoderInitPromise m;
     mDecoderInitPromiseRequest := mDecoderInitPromiseRequest m |}.

Definition set_mTaskQueue (v : bool) (m : SharedDecoderManager) :=
  {| mDecoder := mDecoder m; mPDM := mPDM m; mLayersBackend := mLayersBackend m;
     mImageContainer := mImageContainer m; mTaskQueue := v;
     mActiveProxy := mActiveProxy m; mActiveCallback := mActiveCallback m;
     mInit := mInit m; mWaitForInternalDrain := mWaitForInternalDrain m;
     mDecoderInitPromise := mDecoderInitPromise m;
     mDecoderInitPromiseRequest := mDecoderInitPromiseRequest m |}.

Definition set_mActiveProxy (v : option SharedDecoderProxy)
  (m : SharedDecoderManager) :=
  {| mDecoder := mDecoder m; mPDM := mPDM m; mLayersBackend := mLayersBackend m;
     mImageContainer := mImageContainer m; mTaskQueue := mTaskQueue m;
     mActiveProxy := v; mActiveCallback := mActiveCallback m;
     mInit := mInit m; mWaitForInternalDrain := mWaitForInternalDrain m;
     mDecoderInitPromise := mDecoderInitPromise m;
     mDecoderInitPromiseRequest := mDecoderInitPromiseRequest m |}.

Definition set_mActiveCallback (v : option MediaDataDecoderCallback)
  (m : SharedDecoderManager) :=
  {| mDecoder := mDecoder m; mPDM := mPDM m; mLayersBackend := mLayersBackend m;
     mImageContainer := mImageContainer m; mTaskQueue := mTaskQueue m;
     mActiveProxy := mActiveProxy m; mActiveCallback := v;
     mInit := mInit m; mWaitForInternalDrain := mWaitForInternalDrain m;
     mDecoderInitPromise := mDecoderInitPromise m;
     mDecoderInitPromiseRequest := mDecoderInitPromiseRequest m |}.

Definition set_mInit (v : bool) (m : SharedDecoderManager) :=
  {| mDecoder := mDecoder m; mPDM := mPDM m; mLayersBackend := mLayersBackend m;
     mImageContainer := mImageContainer m; mTaskQueue := mTaskQueue m;
     mActiveProxy := mActiveProxy m; mActiveCallback := mActiveCallback m;
     mInit := v; mWaitForInternalDrain := mWaitForInternalDrain m;
     mDecoderInitPromise := mDecoderInitPromise m;
     mDecoderInitPromiseRequest := mDecoderInitPromiseRequest m |}.

Definition set_mWaitForInternalDrain (v : bool) (m : SharedDecoderManager) :=
  {| mDecoder := mDecoder m; mPDM := mPDM m; mLayersBackend := mLayersBackend m;
     mImageContainer := mImageContainer m; mTaskQueue := mTaskQueue m;
     mActiveProxy := mActiveProxy m; mActiveCallback := mActiveCallback m;
     mInit := mInit m; mWaitForInternalDrain := v;
     mDecoderInitPromise := mDecoderInitPromise m;
     mDecoderInitPromiseRequest := mDecoderInitPromiseRequest m |}.

Definition set_mDecoderInitPromise (v : bool) (m : SharedDecoderManager) :=
  {| mDecoder := mDecoder m; mPDM := mPDM m; mLayersBackend := mLayersBackend m;
     mImageContainer := mImageContainer m; mTaskQueue := mTaskQueue m;
     mActiveProxy := mActiveProxy m; mActiveCallback := mActiveCallback m;
     mInit := mInit m; mWaitForInternalDrain := mWaitForInternalDrain m;
     mDecoderInitPromise := v;
     mDecoderInitPromiseRequest := mDecoderInitPromiseRequest m |}.

Definition set_mDecoderInitPromiseRequest (v : option InitOutcome)
  (m : SharedDecoderManager) :=
  {| mDecoder := mDecoder m; mPDM := mPDM m; mLayersBackend := mLayersBackend m;
     mImageContainer := mImageContainer m; mTaskQueue := mTaskQueue m;
     mActiveProxy := mActiveProxy m; mActiveCallback := mActiveCallback m;
     mInit := mInit m; mWaitForInternalDrain := mWaitForInternalDrain m;
     mDecoderInitPromise := mDecoderInitPromise m;
     mDecoderInitPromiseRequest := v |}.

(** A method: from the manager's fields to a value, the fields afterwards
    and the calls made, or to a hang or a fault. *)
Definition M (A : Type) : Type :=
  SharedDecoderManager -> Result (A * SharedDecoderManager * list Action).

Definition ret {A : Type} (a : A) : M A :=
  fun m => Ok (a, m, []).

Definition bind {A B : Type} (x : M A) (f : A -> M B) : M B :=
  fun m =>
    match x m with
    | Ok (a, m1, o1) =>
        match f a m1 with
        | Ok (b, m2, o2) => Ok (b, m2, o1 ++ o2)
        | Hang => Hang
        | Fault => Fault
        end
    | Hang => Hang
    | Fault => Fault
    end.

Definition get : M SharedDecoderManager :=
  fun m => Ok (m, m, []).

Definition modify (f : SharedDecoderManager -> SharedDecoderManager) : M unit :=
  fun m => Ok (tt, f m, []).

Definition emit (a : Action) : M unit :=
  fun m => Ok (tt, m, [a]).

Definition hang {A : Type} : M A := fun _ => Hang.
Definition fault {A : Type} : M A := fun _ => Fault.

Notation "x <- c1 ;; c2" := (bind c1 (fun x => c2))
  (at level 61, c1 at next level, right associativity).
Notation "c1 ;; c2" := (bind c1 (fun _ => c2))
  (at level 61, right associativity).

(** ** SharedDecoderManager::DrainComplete *)

Definition SharedDecoderManager_DrainComplete : M unit :=
  m <- get ;;
  if mWaitForInternalDrain m then
    (* mon.NotifyAll(); return; *)
    modify (set_mWaitForInternalDrain false)
  else
    match mActiveCallback m with
    | Some cb => emit (ToSink cb EvDrainComplete)
    | None => fault
    end.

(** ** SharedDecoderCallback, the router registered with the decoder *)

Definition SharedDecoderCallback_Output (aData : MediaData) : M unit :=
  m <- get ;;
  match mActiveCallback m with
  | Some cb => emit (ToSink cb (EvOutput aData))
  | None => ret tt
  end.

Definition SharedDecoderCallback_Error : M unit :=
  m <- get ;;
  match mActiveCallback m with
  | Some cb => emit (ToSink cb EvError)
  | None => ret tt
  end.

Definition SharedDecoderCallback_InputExhausted : M unit :=
  m <- get ;;
  match mActiveCallback m with
  | Some cb => emit (ToSink cb EvInputExhausted)
  | None => ret tt
  end.

Definition SharedDecoderCallback_DrainComplete : M unit :=
  m <- get ;;
  match mActiveCallback m with
  | Some _ => SharedDecoderManager_DrainComplete
  | None => ret tt
  end.

Definition SharedDecoderCallback_ReleaseMediaResources : M unit :=
  m <- get ;;
  match mActiveCallback m with
  | Some cb => emit (ToSink cb EvReleaseMediaResources)
  | None => ret tt
  end.

(** The decoder notifies the router of one event. *)
Definition notify (e : Event) : M unit :=
  match e with
  | EvOutput aData => SharedDecoderCallback_Output aData
  | EvError => SharedDecoderCallback_Error
  | EvInputExhausted => SharedDecoderCallback_InputExhausted
  | EvDrainComplete => SharedDecoderCallback_DrainComplete
  | EvReleaseMediaResources => SharedDecoderCallback_ReleaseMediaResources
  end.

Fixpoint notify_all (es : list Event) : M unit :=
  match es with
  | [] => ret tt
  | e :: es' => notify e ;; notify_all es'
  end.

(** [mDecoder->op()]: a fault on a null mDecoder; otherwise the request
    reaches the decoder, which may call the router back before it returns
    its status. *)
Definition call_decoder (r : Request) (op : D -> Reply D) : M nsresult :=
  m <- get ;;
  match mDecoder m with
  | None => fault
  | Some d =>
      emit (ToDecoder r) ;;
      modify (set_mDecoder (Some (next (op d)))) ;;
      notify_all (now (op d)) ;;
      ret (rv (op d))
  end.

(** [while (mWaitForInternalDrain) mon.Wait();] with [w] the notifications
    the decoder's task queue issues while the caller is parked.  They are
    taken one at a time for as long as the flag is set; when none is left
    and the flag is still set the caller is never woken. *)
Fixpoint wait_internal_drain (w : list Event) : M unit :=
  fun m =>
    if mWaitForInternalDrain m then
      match w with
      | [] => Hang
      | e :: w' => (notify e ;; wait_internal_drain w') m
      end
    else Ok (tt, m, []).

(** ** SharedDecoderProxy::Flush and ::Drain *)

Definition SharedDecoderProxy_Flush (this : SharedDecoderProxy) : M nsresult :=
  m <- get ;;
  if is_active (mActiveProxy m) this then
    call_decoder RFlush Flush_
  else ret NS_OK.

Definition SharedDecoderProxy_Drain (this : SharedDecoderProxy) : M nsresult :=
  m <- get ;;
  if is_active (mActiveProxy m) this then
    call_decoder RDrain Drain_
  else
    emit (ToSink (mCallback this) EvDrainComplete) ;;
    ret NS_OK.

(** ** SharedDecoderManager *)

(** SharedDecoderManager::SetIdle.  [aProxy] may be null. *)
Definition SharedDecoderManager_SetIdle (aProxy : option SharedDecoderProxy)
  (w : list Event) : M unit :=
  m <- get ;;
  match aProxy, mActiveProxy m with
  | Some p, Some a =>
      if same_proxy a p then
        modify (set_mWaitForInternalDrain true) ;;
        rv <- SharedDecoderProxy_Drain a ;;
        (if NS_SUCCEEDED rv then wait_internal_drain w else ret tt) ;;
        SharedDecoderProxy_Flush a ;;
        modify (set_mActiveProxy None)
      else ret tt
  | _, _ => ret tt
  end.

(** SharedDecoderManager::Select *)
Definition SharedDecoderManager_Select (aProxy : SharedDecoderProxy)
  (w : list Event) : M unit :=
  m <- get ;;
  if is_active (mActiveProxy m) aProxy then ret tt
  else
    SharedDecoderManager_SetIdle (mActiveProxy m) w ;;
    modify (set_mActiveProxy (Some aProxy)) ;;
    modify (set_mActiveCallback (Some (mCallback aProxy))).

(** SharedDecoderManager::CreateVideoDecoder.  [a] is the address at which
    the new proxy is allocated; the result is null when the factory
    fails. *)
Definition SharedDecoderManager_CreateVideoDecoder (aPDM : P)
  (aConfig : VideoInfo) (aLayersBackend : LayersBackend)
  (aImageContainer : ImageContainer) (aCallback : MediaDataDecoderCallback)
  (a : nat) : M (option SharedDecoderProxy) :=
  let proxy := {| addr := a; mCallback := aCallback |} in
  m <- get ;;
  match mDecoder m with
  | Some _ => ret (Some proxy)
  | None =>
      modify (set_layers aLayersBackend aImageContainer) ;;
      emit (ToFactory aConfig aLayersBackend aImageContainer) ;;
      modify (set_mDecoder
                (CreateDecoder aPDM aConfig aLayersBackend aImageContainer)) ;;
      m1 <- get ;;
      match mDecoder m1 with
      | None => modify (set_mPDM None) ;; ret None
      | Some _ => modify (set_mPDM (Some aPDM)) ;; ret (Some proxy)
      end
  end.

(** SharedDecoderManager::Recreate *)
Definition SharedDecoderManager_Recreate (aConfig : VideoInfo) : M bool :=
  call_decoder RFlush Flush_ ;;
  call_decoder RShutdown Shutdown_ ;;
  m <- get ;;
  match mPDM m with
  | None => fault
  | Some p =>
      emit (ToFactory aConfig (mLayersBackend m) (mImageContainer m)) ;;
      modify (set_mDecoder
                (CreateDecoder p aConfig (mLayersBackend m)
                   (mImageContainer m))) ;;
      m1 <- get ;;
      match mDecoder m1 with
      | None => ret false
      | Some _ => modify (set_mInit false) ;; ret true
      end
  end.

(** The two callbacks InitDecoder chains on the decoder's init promise. *)
Definition InitDecoder_resolved (aType : TrackType) : M unit :=
  modify (set_mDecoderInitPromiseRequest None) ;;
  modify (set_mInit true) ;;
  m <- get ;;
  (* mDecoderInitPromise.ResolveIfExists *)
  if mDecoderInitPromise m then
    modify (set_mDecoderInitPromise false) ;;
    emit (InitPromiseSettled (Resolve aType))
  else ret tt.

Definition InitDecoder_rejected (aReason : DecoderFailureReason) : M unit :=
  modify (set_mDecoderInitPromiseRequest None) ;;
  m <- get ;;
  (* mDecoderInitPromise.RejectIfExists *)
  if mDecoderInitPromise m then
    modify (set_mDecoderInitPromise false) ;;
    emit (InitPromiseSettled (Reject aReason))
  else ret tt.

(** The decoder's init promise settles and the chained callback runs; with
    no request in flight (none begun, or disconnected) nothing runs. *)
Definition init_promise_settles : M unit :=
  m <- get ;;
  match mDecoderInitPromiseRequest m with
  | None => ret tt
  | Some (Resolve aType) => InitDecoder_resolved aType
  | Some (Reject aReason) => InitDecoder_rejected aReason
  end.

(** SharedDecoderManager::InitDecoder.  The MOZ_ASSERT is compiled out. *)
Definition SharedDecoderManager_InitDecoder : M InitPromise :=
  m <- get ;;
  match mInit m, mDecoder m with
  | false, Some d =>
      (* mDecoderInitPromise.Ensure *)
      modify (set_mDecoderInitPromise true) ;;
      (* mDecoder->Init() *)
      emit (ToDecoder RInit) ;;
      modify (set_mDecoder (Some (snd (Init_ d)))) ;;
      (* mDecoderInitPromiseRequest.Begin *)
      match mDecoderInitPromiseRequest m with
      | Some _ => fault
      | None =>
          modify (set_mDecoderInitPromiseRequest (Some (fst (Init_ d)))) ;;
          ret FromHolder
      end
  | _, _ => ret (CreateAndResolve kVideoTrack)
  end.

(** SharedDecoderManager::Shutdown.  [w] are the notifications issued by
    the tasks still on the queue while AwaitShutdownAndIdle blocks. *)
Definition SharedDecoderManager_Shutdown (w : list Event) : M unit :=
  m <- get ;;
  (match mDecoder m with
   | Some _ =>
       call_decoder RShutdown Shutdown_ ;;
       modify (set_mDecoder None)
   | None => ret tt
   end) ;;
  modify (set_mPDM None) ;;
  m1 <- get ;;
  (if mTaskQueue m1 then
     emit TaskQueueShutdown ;;
     notify_all w ;;
     modify (set_mTaskQueue false)
   else ret tt) ;;
  (* mDecoderInitPromiseRequest.DisconnectIfExists *)
  modify (set_mDecoderInitPromiseRequest None).

(** ** SharedDecoderProxy, the remaining methods *)

Definition SharedDecoderProxy_Init (this : SharedDecoderProxy)
  (w : list Event) : M InitPromise :=
  m <- get ;;
  (if is_active (mActiveProxy m) this then ret tt
   else SharedDecoderManager_Select this w) ;;
  SharedDecoderManager_InitDecoder.

Definition SharedDecoderProxy_Input (this : SharedDecoderProxy)
  (aSample : MediaRawData) (w : list Event) : M nsresult :=
  m <- get ;;
  (if is_active (mActiveProxy m) this then ret tt
   else SharedDecoderManager_Select this w) ;;
  call_decoder (RInput aSample) (Input_ aSample).

Definition SharedDecoderProxy_Shutdown (this : SharedDecoderProxy)
  (w : list Event) : M nsresult :=
  SharedDecoderManager_SetIdle (Some this) w ;;
  ret NS_OK.

(** SharedDecoderProxy::~SharedDecoderProxy *)
Definition SharedDecoderProxy_destroy (this : SharedDecoderProxy)
  (w : list Event) : M unit :=
  SharedDecoderProxy_Shutdown this w ;;
  ret tt.

Definition SharedDecoderProxy_IsHardwareAccelerated
  (this : SharedDecoderProxy) : M bool :=
  m <- get ;;
  match mDecoder m with
  | Some d => ret (IsHardwareAccelerated_ d)
  | None => fault
  end.

(** ** One entry point at a time

    Everything that can happen to a manager: a call of one of its methods,
    a call of a method of one of its proxies, a notification from the
    decoder outside any call, or the settling of the decoder's init
    promise. *)
Inductive Op : Type :=
| OpCreateVideoDecoder (aPDM : P) (aConfig : VideoInfo)
    (aLayersBackend : LayersBackend) (aImageContainer : ImageContainer)
    (aCallback : MediaDataDecoderCallback) (a : nat)
| OpRecreate (aConfig : VideoInfo)
| OpSelect (aProxy : SharedDecoderProxy) (w : list Event)
| OpSetIdle (aProxy : option SharedDecoderProxy) (w : list Event)
| OpInitDecoder
| OpInitPromiseSettles
| OpDrainComplete
| OpShutdown (w : list Event)
| OpNotify (e : Event)
| OpProxyInit (this : SharedDecoderProxy) (w : list Event)
| OpProxyInput (this : SharedDecoderProxy) (aSample : MediaRawData)
    (w : list Event)
| OpProxyFlush (this : SharedDecoderProxy)
| OpProxyDrain (this : SharedDecoderProxy)
| OpProxyShutdown (this : SharedDecoderProxy) (w : list Event)
| OpProxyDestroy (this : SharedDecoderProxy) (w : list Event)
| OpProxyIsHardwareAccelerated (this : SharedDecoderProxy).

Definition is_Recreate (op : Op) : bool :=
  match op with
  | OpRecreate _ => true
  | _ => false
  end.

(** Run a method and forget the value it returns. *)
Definition discard {A : Type} (x : M A) : M unit :=
  x ;; ret tt.

Definition step (op : Op) : M unit :=
  match op with
  | OpCreateVideoDecoder aPDM c lb ic cb a =>
      discard (SharedDecoderManager_CreateVideoDecoder aPDM c lb ic cb a)
  | OpRecreate c => discard (SharedDecoderManager_Recreate c)
  | OpSelect p w => SharedDecoderManager_Select p w
  | OpSetIdle p w => SharedDecoderManager_SetIdle p w
  | OpInitDecoder => discard SharedDecoderManager_InitDecoder
  | OpInitPromiseSettles => init_promise_settles
  | OpDrainComplete => SharedDecoderManager_DrainComplete
  | OpShutdown w => SharedDecoderManager_Shutdown w
  | OpNotify e => notify e
  | OpProxyInit p w => discard (SharedDecoderProxy_Init p w)
  | OpProxyInput p s w => discard (SharedDecoderProxy_Input p s w)
  | OpProxyFlush p => discard (SharedDecoderProxy_Flush p)
  | OpProxyDrain p => discard (SharedDecoderProxy_Drain p)
  | OpProxyShutdown p w => discard (SharedDecoderProxy_Shutdown p w)
  | OpProxyDestroy p w => SharedDecoderProxy_destroy p w
  | OpProxyIsHardwareAccelerated p =>
      discard (SharedDecoderProxy_IsHardwareAccelerated p)
  end.

(** A run of entry points from a given manager. *)
Fixpoint run (ops : list Op) : M unit :=
  match ops with
  | [] => ret tt
  | op :: ops' => step op ;; run ops'
  end.

(** The router's target is the active proxy's own callback. *)
Definition callback_of_active (m : SharedDecoderManager) : Prop :=
  forall p, mActiveProxy m = Some p -> mActiveCallback m = Some (mCallback p).

(** ** Lists of notifications *)

(** The notifications up to, and without, the first drain-complete. *)
Fixpoint before_DrainComplete (w : list Event) : list Event :=
  match w with
  | [] => []
  | e :: w' => if is_DrainComplete e then [] else e :: before_DrainComplete w'
  end.

(** The notifications with the first drain-complete taken out. *)
Fixpoint absorb_first (es : list Event) : list Event :=
  match es with
  | [] => []
  | e :: es' => if is_DrainComplete e then es' else e :: absorb_first es'
  end.

(** What the router hears between the drain request of a hand-off and its
    flush request: the callbacks made inside Drain() and, when none of
    them is a drain-complete, those the parked caller is woken by. *)
Definition heard (sync w : list Event) : list Event :=
  if existsb is_DrainComplete sync then sync
  else sync ++ before_DrainComplete w ++ [EvDrainComplete].

(** ** Vocabulary of the statements *)

(** [keeps Q x]: when [x] returns from a manager satisfying [Q], the
    manager satisfies [Q] afterwards. *)
Definition keeps (Q : SharedDecoderManager -> Prop) {A : Type} (x : M A)
  : Prop :=
  forall m a m' o, Q m -> x m = Ok (a, m', o) -> Q m'.

(** A manager some run of entry points leads to from a new one. *)
Definition reachable (m : SharedDecoderManager) : Prop :=
  exists ops o, run ops SharedDecoderManager_new = Ok (tt, m, o).

(** The manager a completed hand-off leaves: the decoder as the flush left
    it, the wait flag as given, and no active proxy. *)
Definition handed_off (d : D) (flag : bool) (m : SharedDecoderManager)
  : SharedDecoderManager :=
  set_mActiveProxy None
    (set_mWaitForInternalDrain flag (set_mDecoder (Some d) m)).

(** The requests to the decoder among the calls made. *)
Definition requests (o : list Action) : list Action :=
  filter is_ToDecoder o.


(** [frame m m']: from [m] to [m'] only the wait flag and the inner state
    of the decoder may have changed; a decoder is held after exactly when
    one was held before. *)
Definition frame (m m' : SharedDecoderManager) : Prop :=
  mPDM m' = mPDM m /\
  mLayersBackend m' = mLayersBackend m /\
  mImageContainer m' = mImageContainer m /\
  mTaskQueue m' = mTaskQueue m /\
  mActiveProxy m' = mActiveProxy m /\
  mActiveCallback m' = mActiveCallback m /\
  mInit m' = mInit m /\
  mDecoderInitPromise m' = mDecoderInitPromise m /\
  mDecoderInitPromiseRequest m' = mDecoderInitPromiseRequest m /\
  (mDecoder m' = None <-> mDecoder m = None).

(** A manager that holds a decoder knows the factory that made it. *)
Definition factory_known (m : SharedDecoderManager) : Prop :=
  mDecoder m <> None -> mPDM m <> None.

(** The hand-off of the active proxy can complete: there is a decoder, and
    its drain is refused, or answered from inside Drain(), or answered by
    the task queue while the caller is parked. *)
Definition can_release (w : list Event) (m : SharedDecoderManager) : bool :=
  match mDecoder m with
  | None => false
  | Some d =>
      negb (NS_SUCCEEDED (rv (Drain_ d)))
      || existsb is_DrainComplete (now (Drain_ d))
      || existsb is_DrainComplete w
  end.

(** [n] calls of InitDecoder, each made after the init promise of the one
    before has settled; the promises handed back, in order. *)
Fixpoint init_rounds (n : nat) : M (list InitPromise) :=
  match n with
  | O => ret []
  | S n' =>
      p <- SharedDecoderManager_InitDecoder ;;
      init_promise_settles ;;
      ps <- init_rounds n' ;;
      ret (p :: ps)
  end.

Definition is_ToSink (a : Action) : bool :=
  match a with
  | ToSink _ _ => true
  | _ => false
  end.


End Model.

(** ** A scripted decoder and factory, to run the methods on *)

Record Scripted : Type := {
  init_outcome : InitOutcome;
  drain_rv : nsresult;
  drain_now : list Event;
  flush_now : list Event
}.

#[export] Instance Scripted_decoder : MediaDataDecoder Scripted := {|
  Init_ := fun d => (init_outcome d, d);
  Input_ := fun _ d => {| rv := NS_OK; now := []; next := d |};
  Flush_ := fun d => {| rv := NS_OK; now := flush_now d; next := d |};
  Drain_ := fun d => {| rv := drain_rv d; now := drain_now d; next := d |};
  Shutdown_ := fun d => {| rv := NS_OK; now := []; next := d |};
  IsHardwareAccelerated_ := fun _ => false
|}.

(** A factory that hands out what it was given, or nothing. *)
Record Stock : Type := {
  product : option Scripted
}.

#[export] Instance Stock_pdm : PlatformDecoderModule Stock Scripted := {|
  CreateDecoder := fun p _ _ _ => product p
|}.

(** A decoder that answers a drain from its task queue. *)
Definition queued_drain : Scripted := {|
  init_outcome := Resolve kVideoTrack;
  drain_rv := NS_OK;
  drain_now := [];
  flush_now := []
|}.

(** A decoder that refuses to drain. *)
Definition failing_drain : Scripted := {|
  init_outcome := Resolve kVideoTrack;
  drain_rv := NS_ERROR_FAILURE;
  drain_now := [];
  flush_now := []
|}.

(** A decoder whose init reports an audio track. *)
Definition audio_init : Scripted := {|
  init_outcome := Resolve kAudioTrack;
  drain_rv := NS_OK;
  drain_now := [EvDrainComplete];
  flush_now := []
|}.

Definition proxyA : SharedDecoderProxy := {| addr := 1; mCallback := 10 |}.
Definition proxyB : SharedDecoderProxy := {| addr := 2; mCallback := 20 |}.

(** A manager that holds decoder [d], made by a factory that would make
    [d'] next, with [a] the active proxy. *)
Definition holding (d : Scripted) (d' : option Scripted)
  (a : option SharedDecoderProxy) (init : bool)
  : @SharedDecoderManager Scripted Stock := {|
  mDecoder := Some d;
  mPDM := Some {| product := d' |};
  mLayersBackend := 0;
  mImageContainer := 0;
  mTaskQueue := true;
  mActiveProxy := a;
  mActiveCallback := option_map mCallback a;
  mInit := init;
  mWaitForInternalDrain := false;
  mDecoderInitPromise := false;
  mDecoderInitPromiseRequest := None
|}.

(** The first proxy is created, used and shut down; its decoder answers the
    drain from the task queue. *)
Definition use_and_release : list (@Op Stock) := [
  OpCreateVideoDecoder {| product := Some queued_drain |} 0 0 0 10 1;
  OpProxyInput proxyA 0 [];
  OpProxyShutdown proxyA [EvDrainComplete]
].

(** The manager that run leaves. *)
Definition released : @SharedDecoderManager Scripted Stock := {|
  mDecoder := Some queued_drain;
  mPDM := Some {| product := Some queued_drain |};
  mLayersBackend := 0;
  mImageContainer := 0;
  mTaskQueue := true;
  mActiveProxy := None;
  mActiveCallback := Some 10;
  mInit := false;
  mWaitForInternalDrain := false;
  mDecoderInitPromise := false;
  mDecoderInitPromiseRequest := None
|}.

(** * MP4Demuxer and MP4TrackDemuxer

    The second part of the file: the demuxer that hands out one track
    demuxer per track, and the track demuxer that walks the samples of its
    track.  The index of a track and the iterator over it (mp4_demuxer::Index
    and SampleIterator), the parsed metadata (MP4Metadata) and the media
    resource are interfaces declared outside the given sources: the first
    two are a type class, the metadata is a record of its answers, and what
    the resource answers to GetCachedRanges is an argument of the methods
    that ask. *)

(** DemuxerFailureReason, the values this file uses. *)
Inductive DemuxerFailureReason : Type :=
| END_OF_STREAM
| DEMUXER_ERROR.

(** A promise created already settled. *)
Inductive Settled (A E : Type) : Type :=
| Resolved (a : A)
| Rejected (e : E).

Arguments Resolved {A E} a.
Arguments Rejected {A E} e.

Definition NS_FAILED (rv : nsresult) : bool := negb (NS_SUCCEEDED rv).

(** Times are int64 microseconds. *)
Definition Microseconds := Z.
Definition INT64_MAX : Z := 9223372036854775807%Z.

(** [aNumSamples--] on an int32, wrapping as the hardware does. *)
Definition dec32 (n : Z) : Z :=
  if (n =? -2147483648)%Z then 2147483647%Z else (n - 1)%Z.

(** [parsed++] on a uint32. *)
Definition inc32 (n : Z) : Z := ((n + 1) mod 4294967296)%Z.

Definition MediaByteRange : Type := Z * Z.
Definition MediaByteBuffer : Type := list nat.

(** CryptoTrack, and the same fields of CryptoSample. *)
Record Crypto : Type := {
  valid : bool;
  mode : nat;
  iv_size : nat;
  key : list nat
}.

(** MediaRawData as the demuxer sees it: the fields it reads and writes.
    mExtraData is the address of a shared byte buffer. *)
Record RawSample : Type := {
  mTime : Microseconds;
  mKeyframe : bool;
  mCrypto : Crypto;
  mExtraData : nat
}.

(** TrackInfo as the demuxer sees it.  GetAsVideoInfo() is non-null exactly
    for a video track, IsAudio() holds exactly for an audio track. *)
Record TrackInfo : Type := {
  mTrackId : nat;
  info_type : TrackType;
  info_mCrypto : Crypto;
  info_mExtraData : nat
}.

Definition IsAudio (i : TrackInfo) : bool :=
  match info_type i with
  | kAudioTrack => true
  | _ => false
  end.

Definition GetAsVideoInfo (i : TrackInfo) : option TrackInfo :=
  match info_type i with
  | kVideoTrack => Some i
  | _ => None
  end.

(** One entry of a track's sample table, known by its position. *)
Definition Indice := nat.

(** The index of one track together with the iterator over it.  The
    iterator walks a finite table: every sample it hands out brings it
    closer to the end. *)
Class SampleIndex (X : Type) : Type := {
  Index_new : list Indice -> nat -> bool -> X;
  UpdateMoofIndex : list MediaByteRange -> X -> X;
  ConvertByteRangesToTimeRanges : list MediaByteRange -> X -> list (Z * Z);
  Iterator_Seek : Microseconds -> X -> X;
  Iterator_GetNext : X -> option RawSample * X;
  Iterator_GetNextKeyframeTime : X -> Microseconds;
  samples_left : X -> nat;
  GetNext_advances :
    forall (x x' : X) (s : RawSample),
      Iterator_GetNext x = (Some s, x') -> samples_left x' < samples_left x
}.

(** mp4_demuxer::PsshInfo and CryptoFile. *)
Record PsshInfo : Type := {
  data : list nat
}.

Record CryptoFile : Type := {
  file_valid : bool;
  pssh : list PsshInfo
}.

(** MP4Metadata: what a parsed header answers.  Track counts and track
    numbers are uint32. *)
Record MP4Metadata : Type := {
  GetNumberTracks : TrackType -> Z;
  GetTrackInfo : TrackType -> Z -> option TrackInfo;
  ReadTrackIndex : nat -> option (list Indice);
  CanSeek : bool;
  Crypto_ : CryptoFile
}.

Section MP4.

Context {X : Type}.
Context {index : SampleIndex X}.

(** The fields of MP4TrackDemuxer.  mIndex stands for mIndex and mIterator
    together. *)
Record MP4TrackDemuxer : Type := {
  mInfo : TrackInfo;
  mIndex : X;
  mNextKeyframeTime : option Microseconds;
  mQueuedSample : option RawSample;
  mNeedReIndex : bool
}.

Definition set_mIndex (x : X) (t : MP4TrackDemuxer) : MP4TrackDemuxer :=
  {| mInfo := mInfo t; mIndex := x;
     mNextKeyframeTime := mNextKeyframeTime t;
     mQueuedSample := mQueuedSample t; mNeedReIndex := mNeedReIndex t |}.

Definition set_mNextKeyframeTime (v : option Microseconds)
  (t : MP4TrackDemuxer) : MP4TrackDemuxer :=
  {| mInfo := mInfo t; mIndex := mIndex t; mNextKeyframeTime := v;
     mQueuedSample := mQueuedSample t; mNeedReIndex := mNeedReIndex t |}.

Definition set_mQueuedSample (v : option RawSample) (t : MP4TrackDemuxer)
  : MP4TrackDemuxer :=
  {| mInfo := mInfo t; mIndex := mIndex t;
     mNextKeyframeTime := mNextKeyframeTime t;
     mQueuedSample := v; mNeedReIndex := mNeedReIndex t |}.

Definition set_mNeedReIndex (v : bool) (t : MP4TrackDemuxer)
  : MP4TrackDemuxer :=
  {| mInfo := mInfo t; mIndex := mIndex t;
     mNextKeyframeTime := mNextKeyframeTime t;
     mQueuedSample := mQueuedSample t; mNeedReIndex := v |}.

(** MP4TrackDemuxer::EnsureUpToDateIndex.  [cached] is what
    GetCachedRanges answers if it is asked. *)
Definition MP4TrackDemuxer_EnsureUpToDateIndex
  (cached : nsresult * list MediaByteRange) (t : MP4TrackDemuxer)
  : MP4TrackDemuxer :=
  if negb (mNeedReIndex t) then t
  else if NS_FAILED (fst cached) then t
  else set_mNeedReIndex false
         (set_mIndex (UpdateMoofIndex (snd cached) (mIndex t)) t).

(** MP4TrackDemuxer::MP4TrackDemuxer *)
Definition MP4TrackDemuxer_new (aInfo : TrackInfo) (indices : list Indice)
  (cached : nsresult * list MediaByteRange) : MP4TrackDemuxer :=
  MP4TrackDemuxer_EnsureUpToDateIndex cached
    {| mInfo := aInfo;
       mIndex := Index_new indices (mTrackId aInfo) (IsAudio aInfo);
       mNextKeyframeTime := None;
       mQueuedSample := None;
       mNeedReIndex := true |}.

(** MP4TrackDemuxer::SetNextKeyFrameTime *)
Definition MP4TrackDemuxer_SetNextKeyFrameTime (t : MP4TrackDemuxer)
  : MP4TrackDemuxer :=
  let frameTime := Iterator_GetNextKeyframeTime (mIndex t) in
  if (frameTime =? -1)%Z then set_mNextKeyframeTime None t
  else set_mNextKeyframeTime (Some frameTime) t.

(** MP4TrackDemuxer::Seek; the time the promise resolves with. *)
Definition MP4TrackDemuxer_Seek (aTime : Microseconds) (t : MP4TrackDemuxer)
  : Microseconds * MP4TrackDemuxer :=
  let t1 := set_mQueuedSample None t in
  let x1 := Iterator_Seek aTime (mIndex t1) in
  let next := Iterator_GetNext x1 in
  let t2 := set_mQueuedSample (fst next) (set_mIndex (snd next) t1) in
  let seekTime :=
    match mQueuedSample t2 with
    | Some q => mTime q
    | None => aTime
    end in
  (seekTime, MP4TrackDemuxer_SetNextKeyFrameTime t2).

(** The body of the first loop of UpdateSamples, on one sample. *)
Definition UpdateSamples_one (i : TrackInfo) (sample : RawSample)
  : RawSample :=
  let s1 :=
    if valid (mCrypto sample) then
      {| mTime := mTime sample; mKeyframe := mKeyframe sample;
         mCrypto := {| valid := valid (mCrypto sample);
                       mode := mode (info_mCrypto i);
                       iv_size := iv_size (info_mCrypto i);
                       key := key (mCrypto sample) ++ key (info_mCrypto i) |};
         mExtraData := mExtraData sample |}
    else sample in
  match GetAsVideoInfo i with
  | Some v =>
      {| mTime := mTime s1; mKeyframe := mKeyframe s1; mCrypto := mCrypto s1;
         mExtraData := info_mExtraData v |}
  | None => s1
  end.

(** MP4TrackDemuxer::UpdateSamples: the samples as rewritten in place, and
    the demuxer.  LastElement() of an empty array is out of bounds: no
    result. *)
Definition MP4TrackDemuxer_UpdateSamples (aSamples : list RawSample)
  (t : MP4TrackDemuxer) : option (list RawSample * MP4TrackDemuxer) :=
  let samples := map (UpdateSamples_one (mInfo t)) aSamples in
  match mNextKeyframeTime t with
  | None => Some (samples, MP4TrackDemuxer_SetNextKeyFrameTime t)
  | Some next =>
      match last (map Some samples) None with
      | None => None
      | Some l =>
          if (next <=? mTime l)%Z
          then Some (samples, MP4TrackDemuxer_SetNextKeyFrameTime t)
          else Some (samples, t)
      end
  end.

(** The loop of GetSamples.  [fuel] bounds the number of turns; the
    iterator cannot take more than [samples_left] of them. *)
Fixpoint GetSamples_loop (fuel : nat) (aNumSamples : Z) (x : X)
  (samples : list RawSample) : list RawSample * X :=
  match fuel with
  | O => (samples, x)
  | S fuel' =>
      if (aNumSamples =? 0)%Z then (samples, x)
      else
        match Iterator_GetNext x with
        | (Some sample, x') =>
            GetSamples_loop fuel' (dec32 aNumSamples) x' (samples ++ [sample])
        | (None, x') => (samples, x')
        end
  end.

(** MP4TrackDemuxer::GetSamples.  [aNumSamples] is an int32. *)
Definition MP4TrackDemuxer_GetSamples (aNumSamples : Z)
  (cached : nsresult * list MediaByteRange) (t : MP4TrackDemuxer)
  : option (Settled (list RawSample) DemuxerFailureReason * MP4TrackDemuxer) :=
  let t1 := MP4TrackDemuxer_EnsureUpToDateIndex cached t in
  if (aNumSamples =? 0)%Z then Some (Rejected DEMUXER_ERROR, t1)
  else
    let '(samples, n, t2) :=
      match mQueuedSample t1 with
      | Some q => ([q], dec32 aNumSamples, set_mQueuedSample None t1)
      | None => ([], aNumSamples, t1)
      end in
    let '(samples', x') :=
      GetSamples_loop (S (samples_left (mIndex t2))) n (mIndex t2) samples in
    let t3 := set_mIndex x' t2 in
    match samples' with
    | [] => Some (Rejected END_OF_STREAM, t3)
    | _ =>
        match MP4TrackDemuxer_UpdateSamples samples' t3 with
        | Some (out, t4) => Some (Resolved out, t4)
        | None => None
        end
    end.

(** The loop of SkipToNextRandomAccessPoint: the sample found, if any, the
    count of samples parsed, and the iterator. *)
Fixpoint Skip_loop (fuel : nat) (aTimeThreshold : Microseconds) (x : X)
  (parsed : Z) : option RawSample * Z * X :=
  match fuel with
  | O => (None, parsed, x)
  | S fuel' =>
      match Iterator_GetNext x with
      | (Some sample, x') =>
          if mKeyframe sample && (aTimeThreshold <=? mTime sample)%Z
          then (Some sample, inc32 parsed, x')
          else Skip_loop fuel' aTimeThreshold x' (inc32 parsed)
      | (None, x') => (None, parsed, x')
      end
  end.

(** MP4TrackDemuxer::SkipToNextRandomAccessPoint: resolved with the count
    parsed, or rejected with END_OF_STREAM and the count parsed. *)
Definition MP4TrackDemuxer_SkipToNextRandomAccessPoint
  (aTimeThreshold : Microseconds) (t : MP4TrackDemuxer)
  : Settled Z (DemuxerFailureReason * Z) * MP4TrackDemuxer :=
  let t1 := set_mQueuedSample None t in
  let '(found, parsed, x') :=
    Skip_loop (S (samples_left (mIndex t1))) aTimeThreshold (mIndex t1) 0%Z in
  let t2 :=
    match found with
    | Some sample => set_mQueuedSample (Some sample) (set_mIndex x' t1)
    | None => set_mIndex x' t1
    end in
  let t3 := MP4TrackDemuxer_SetNextKeyFrameTime t2 in
  match found with
  | Some _ => (Resolved parsed, t3)
  | None => (Rejected (END_OF_STREAM, parsed), t3)
  end.

(** MP4TrackDemuxer::GetNextRandomAccessPoint: the status and [*aTime]. *)
Definition MP4TrackDemuxer_GetNextRandomAccessPoint (t : MP4TrackDemuxer)
  : nsresult * Microseconds :=
  match mNextKeyframeTime t with
  | None => (NS_OK, INT64_MAX)
  | Some v => (NS_OK, v)
  end.

(** MP4TrackDemuxer::Reset *)
Definition MP4TrackDemuxer_Reset (t : MP4TrackDemuxer) : MP4TrackDemuxer :=
  let t1 := set_mQueuedSample None t in
  MP4TrackDemuxer_SetNextKeyFrameTime
    (set_mIndex (Iterator_Seek 0%Z (mIndex t1)) t1).

(** MP4TrackDemuxer::NotifyDataArrived *)
Definition MP4TrackDemuxer_NotifyDataArrived (t : MP4TrackDemuxer)
  : MP4TrackDemuxer :=
  set_mNeedReIndex true t.

(** The samples the iterator hands out from [x] on, up to its first null,
    for at most [fuel] of them. *)
Fixpoint upcoming_upto (fuel : nat) (x : X) : list RawSample :=
  match fuel with
  | O => []
  | S fuel' =>
      match Iterator_GetNext x with
      | (Some sample, x') => sample :: upcoming_upto fuel' x'
      | (None, _) => []
      end
  end.

(** All the samples the iterator hands out from [x] on. *)
Definition upcoming (x : X) : list RawSample :=
  upcoming_upto (samples_left x) x.

(** ** MP4Demuxer *)

(** The fields of MP4Demuxer that its methods use.  mMetadata is null until
    Init has parsed the header.  mDemuxers holds the track demuxers handed
    out; a track demuxer is known by its position in it. *)
Record MP4Demuxer : Type := {
  mMetadata : option MP4Metadata;
  mDemuxers : list MP4TrackDemuxer
}.

(** MP4Demuxer::Init.  [complete] is the answer of HasCompleteMetadata,
    [initData] that of Metadata (null when out of memory), [parse] the
    constructor of MP4Metadata.  The promise, and the demuxer. *)
Definition MP4Demuxer_Init (complete : bool)
  (initData : option MediaByteBuffer) (parse : MediaByteBuffer -> MP4Metadata)
  (dm : MP4Demuxer) : Settled nsresult DemuxerFailureReason * MP4Demuxer :=
  if negb complete then (Rejected DEMUXER_ERROR, dm)
  else
    match initData with
    | None => (Rejected DEMUXER_ERROR, dm)
    | Some buf =>
        let md := parse buf in
        let dm1 := {| mMetadata := Some md; mDemuxers := mDemuxers dm |} in
        if (GetNumberTracks md kAudioTrack =? 0)%Z
           && (GetNumberTracks md kVideoTrack =? 0)%Z
        then (Rejected DEMUXER_ERROR, dm1)
        else (Resolved NS_OK, dm1)
    end.

(** MP4Demuxer::GetNumberTracks; no result on a null mMetadata. *)
Definition MP4Demuxer_GetNumberTracks (aType : TrackType) (dm : MP4Demuxer)
  : option Z :=
  match mMetadata dm with
  | Some md => Some (GetNumberTracks md aType)
  | None => None
  end.

(** MP4Demuxer::HasTrackType *)
Definition MP4Demuxer_HasTrackType (aType : TrackType) (dm : MP4Demuxer)
  : option bool :=
  match MP4Demuxer_GetNumberTracks aType dm with
  | Some n => Some (negb (n =? 0)%Z)
  | None => None
  end.

(** MP4Demuxer::GetTrackDemuxer.  The result is the position of the new
    track demuxer in mDemuxers, or null; no result on a null mMetadata. *)
Definition MP4Demuxer_GetTrackDemuxer (aType : TrackType) (aTrackNumber : Z)
  (cached : nsresult * list MediaByteRange) (dm : MP4Demuxer)
  : option (option nat * MP4Demuxer) :=
  match mMetadata dm with
  | None => None
  | Some md =>
      if (GetNumberTracks md aType <=? aTrackNumber)%Z then Some (None, dm)
      else
        match GetTrackInfo md aType aTrackNumber with
        | None => Some (None, dm)
        | Some info =>
            match ReadTrackIndex md (mTrackId info) with
            | None => Some (None, dm)
            | Some indices =>
                let e := MP4TrackDemuxer_new info indices cached in
                Some (Some (length (mDemuxers dm)),
                      {| mMetadata := mMetadata dm;
                         mDemuxers := mDemuxers dm ++ [e] |})
            end
        end
  end.

(** MP4Demuxer::NotifyDataArrived *)
Definition MP4Demuxer_NotifyDataArrived (dm : MP4Demuxer) : MP4Demuxer :=
  {| mMetadata := mMetadata dm;
     mDemuxers := map MP4TrackDemuxer_NotifyDataArrived (mDemuxers dm) |}.

(** MP4Demuxer::NotifyDataRemoved; its loop calls NotifyDataArrived. *)
Definition MP4Demuxer_NotifyDataRemoved (dm : MP4Demuxer) : MP4Demuxer :=
  {| mMetadata := mMetadata dm;
     mDemuxers := map MP4TrackDemuxer_NotifyDataArrived (mDemuxers dm) |}.

(** MP4Demuxer::GetCrypto: null, or the init data added under the type
    "cenc"; no result on a null mMetadata. *)
Definition MP4Demuxer_GetCrypto (dm : MP4Demuxer)
  : option (option (String.string * list nat)) :=
  match mMetadata dm with
  | None => None
  | Some md =>
      let cryptoFile := Crypto_ md in
      if negb (file_valid cryptoFile) then Some None
      else
        let initData :=
          fold_left (fun acc p => acc ++ data p) (pssh cryptoFile) [] in
        match initData with
        | [] => Some None
        | _ => Some (Some ("cenc"%string, initData))
        end
  end.

(** ** Vocabulary of the statements about the demuxer *)

(** The test of SkipToNextRandomAccessPoint: a keyframe at or after the
    threshold. *)
Definition is_access_point (aTimeThreshold : Microseconds) (s : RawSample)
  : bool :=
  mKeyframe s && (aTimeThreshold <=? mTime s)%Z.

(** What a track demuxer can still hand out: the sample it has queued, then
    what its iterator has to come. *)
Definition available (t : MP4TrackDemuxer) : list RawSample :=
  match mQueuedSample t with
  | Some q => q :: upcoming (mIndex t)
  | None => upcoming (mIndex t)
  end.

(** What GetNextRandomAccessPoint reports for an answer of the iterator's
    GetNextKeyframeTime. *)
Definition random_access_point (frameTime : Microseconds) : Microseconds :=
  if (frameTime =? -1)%Z then INT64_MAX else frameTime.


End MP4.

(** ** A track held in memory, to run the demuxer on *)

(** An index that is the list of the samples still to come. *)
#[export] Instance ListIndex : SampleIndex (list RawSample).
Proof.
  refine {|
    Index_new := fun _ _ _ => [];
    UpdateMoofIndex := fun _ x => x;
    ConvertByteRangesToTimeRanges := fun _ _ => [];
    Iterator_Seek := fun time x =>
      filter (fun s => (time <=? mTime s)%Z) x;
    Iterator_GetNext := fun x =>
      match x with
      | [] => (None, [])
      | s :: x' => (Some s, x')
      end;
    Iterator_GetNextKeyframeTime := fun x =>
      match find mKeyframe x with
      | Some s => mTime s
      | None => (-1)%Z
      end;
    samples_left := @length RawSample
  |}.
  intros x x' s E. destruct x as [|s0 x0]; inversion E; subst. simpl. lia.
Defined.

Definition clear_sample (time : Z) (keyframe : bool) : RawSample := {|
  mTime := time;
  mKeyframe := keyframe;
  mCrypto := {| valid := false; mode := 0; iv_size := 0; key := [] |};
  mExtraData := 0
|}.

Definition video_info : TrackInfo := {|
  mTrackId := 1;
  info_type := kVideoTrack;
  info_mCrypto := {| valid := false; mode := 0; iv_size := 0; key := [] |};
  info_mExtraData := 7
|}.

(** A video track demuxer at the start of four samples, the first and the
    third of them keyframes. *)
Definition four_samples : @MP4TrackDemuxer (list RawSample) := {|
  mInfo := video_info;
  mIndex := [clear_sample 0 true; clear_sample 10 false;
             clear_sample 20 true; clear_sample 30 false];
  mNextKeyframeTime := None;
  mQueuedSample := None;
  mNeedReIndex := false
|}.

(** A header with one video track and three pssh boxes, the second of them
    empty. *)
Definition one_video_track : MP4Metadata := {|
  GetNumberTracks := fun aType =>
    match aType with
    | kVideoTrack => 1%Z
    | _ => 0%Z
    end;
  GetTrackInfo := fun aType n =>
    match aType with
    | kVideoTrack => if (n =? 0)%Z then Some video_info else None
    | _ => None
    end;
  ReadTrackIndex := fun _ => Some [];
  CanSeek := true;
  Crypto_ := {| file_valid := true;
                pssh := [ {| data := [1; 2] |}; {| data := [] |};
                          {| data := [3] |} ] |}
|}.

(** A demuxer that has parsed that header and handed out one track
    demuxer. *)
Definition opened : @MP4Demuxer (list RawSample) := {|
  mMetadata := Some one_video_track;
  mDemuxers := [four_samples]
|}.

(** * Properties *)

Section Properties.

Context {D P : Type}.
Context {decoder : MediaDataDecoder D}.
Context {pdm : PlatformDecoderModule P D}.

Local Abbreviation Manager := (@SharedDecoderManager D P).

(** ** Reasoning about a method one statement at a time *)

Lemma keeps_ret (Q : Manager -> Prop) {A : Type} (a : A) : keeps Q (ret a).
Proof. intros m a' m' o HQ E. inversion E; subst; assumption. Qed.

Lemma keeps_bind (Q : Manager -> Prop) {A B : Type} (x : M A) (f : A -> M B) :
  keeps Q x -> (forall a, keeps Q (f a)) -> keeps Q (bind x f).
Proof.
  intros Hx Hf m b m' o HQ E. unfold bind in E.
  destruct (x m) as [[[a m1] o1]| |] eqn:Ex; try discriminate.
  destruct (f a m1) as [[[b' m2] o2]| |] eqn:Ef; try discriminate.
  inversion E; subst.
  eapply Hf; [eapply Hx; eassumption | eassumption].
Qed.

(** ** The router *)

(** With nobody selected yet the router drops everything. *)
Lemma notify_no_target (e : Event) (m : Manager) :
  mActiveCallback m = None -> notify e m = Ok (tt, m, []).
Proof.
  intros H.
  destruct e; unfold notify, SharedDecoderCallback_Output,
    SharedDecoderCallback_Error, SharedDecoderCallback_InputExhausted,
    SharedDecoderCallback_DrainComplete,
    SharedDecoderCallback_ReleaseMediaResources, bind, get;
    rewrite H; reflexivity.
Qed.

(** With a target, everything is forwarded except a drain-complete that
    arrives while the manager waits for its own drain. *)
Lemma notify_target (c : MediaDataDecoderCallback) (e : Event) (m : Manager) :
  mActiveCallback m = Some c ->
  notify e m =
    if is_DrainComplete e && mWaitForInternalDrain m
    then Ok (tt, set_mWaitForInternalDrain false m, [])
    else Ok (tt, m, [ToSink c e]).
Proof.
  intros H.
  destruct e; unfold notify, SharedDecoderCallback_Output,
    SharedDecoderCallback_Error, SharedDecoderCallback_InputExhausted,
    SharedDecoderCallback_DrainComplete, SharedDecoderManager_DrainComplete,
    SharedDecoderCallback_ReleaseMediaResources, bind, get, emit, modify;
    rewrite H; simpl; try reflexivity.
  destruct (mWaitForInternalDrain m); simpl; [reflexivity|].
  rewrite H. reflexivity.
Qed.

Lemma notify_all_no_target (es : list Event) (m : Manager) :
  mActiveCallback m = None -> notify_all es m = Ok (tt, m, []).
Proof.
  intros H. induction es as [|e es IH]; [reflexivity|].
  simpl. unfold bind. rewrite (notify_no_target e m H), IH. reflexivity.
Qed.

Lemma notify_all_idle (c : MediaDataDecoderCallback) (es : list Event)
  (m : Manager) :
  mActiveCallback m = Some c ->
  mWaitForInternalDrain m = false ->
  notify_all es m = Ok (tt, m, map (ToSink c) es).
Proof.
  intros Hc Hw. induction es as [|e es IH]; [reflexivity|].
  simpl. unfold bind. rewrite (notify_target e m Hc), Hw, andb_false_r, IH.
  reflexivity.
Qed.

Lemma notify_all_armed (c : MediaDataDecoderCallback) (es : list Event)
  (m : Manager) :
  mActiveCallback m = Some c ->
  mWaitForInternalDrain m = true ->
  notify_all es m =
    Ok (tt,
        (if existsb is_DrainComplete es
         then set_mWaitForInternalDrain false m else m),
        map (ToSink c) (absorb_first es)).
Proof.
  intros Hc Hw. induction es as [|e es IH]; [reflexivity|].
  simpl. unfold bind. rewrite (notify_target e m Hc), Hw, andb_true_r.
  destruct (is_DrainComplete e); simpl.
  - rewrite (@notify_all_idle c es (set_mWaitForInternalDrain false m));
      [reflexivity | exact Hc | reflexivity].
  - rewrite IH. reflexivity.
Qed.

(** Notifications never hang and never fault. *)
Lemma notify_all_returns (es : list Event) (m : Manager) :
  exists m' o, notify_all es m = Ok (tt, m', o).
Proof.
  destruct (mActiveCallback m) as [c|] eqn:Hc.
  - destruct (mWaitForInternalDrain m) eqn:Hw.
    + rewrite (notify_all_armed es m Hc Hw). eauto.
    + rewrite (notify_all_idle es m Hc Hw). eauto.
  - rewrite (notify_all_no_target es m Hc). eauto.
Qed.

(** ** Calls into the decoder *)

Lemma call_decoder_null (r : Request) (op : D -> Reply D) (m : Manager) :
  mDecoder m = None -> call_decoder r op m = Fault.
Proof. intros H. unfold call_decoder, bind, get. rewrite H. reflexivity. Qed.

(** Without a wait pending, the callbacks made inside the call all go to
    the router's target. *)
Lemma call_decoder_idle (c : MediaDataDecoderCallback) (r : Request)
  (op : D -> Reply D) (d : D) (m : Manager) :
  mDecoder m = Some d ->
  mActiveCallback m = Some c ->
  mWaitForInternalDrain m = false ->
  call_decoder r op m =
    Ok (rv (op d), set_mDecoder (Some (next (op d))) m,
        ToDecoder r :: map (ToSink c) (now (op d))).
Proof.
  intros Hd Hc Hw. unfold call_decoder, bind, get, emit, modify, ret.
  rewrite Hd.
  rewrite (@notify_all_idle c (now (op d))
             (set_mDecoder (Some (next (op d))) m));
    [| exact Hc | exact Hw].
  simpl. rewrite app_nil_r. reflexivity.
Qed.

(** With a wait pending, the first drain-complete made inside the call is
    taken by the manager. *)
Lemma call_decoder_armed (c : MediaDataDecoderCallback) (r : Request)
  (op : D -> Reply D) (d : D) (m : Manager) :
  mDecoder m = Some d ->
  mActiveCallback m = Some c ->
  mWaitForInternalDrain m = true ->
  call_decoder r op m =
    Ok (rv (op d),
        set_mWaitForInternalDrain (negb (existsb is_DrainComplete (now (op d))))
          (set_mDecoder (Some (next (op d))) m),
        ToDecoder r :: map (ToSink c) (absorb_first (now (op d)))).
Proof.
  intros Hd Hc Hw. unfold call_decoder, bind, get, emit, modify, ret.
  rewrite Hd.
  rewrite (@notify_all_armed c (now (op d))
             (set_mDecoder (Some (next (op d))) m));
    [| exact Hc | exact Hw].
  simpl. rewrite app_nil_r.
  destruct (existsb is_DrainComplete (now (op d))); simpl; [reflexivity|].
  destruct m; simpl in *; subst; reflexivity.
Qed.

(** With no target yet, the callbacks are dropped. *)
Lemma call_decoder_no_target (r : Request) (op : D -> Reply D) (d : D)
  (m : Manager) :
  mDecoder m = Some d ->
  mActiveCallback m = None ->
  call_decoder r op m =
    Ok (rv (op d), set_mDecoder (Some (next (op d))) m, [ToDecoder r]).
Proof.
  intros Hd Hc. unfold call_decoder, bind, get, emit, modify, ret.
  rewrite Hd.
  rewrite (@notify_all_no_target (now (op d))
             (set_mDecoder (Some (next (op d))) m));
    [| exact Hc].
  reflexivity.
Qed.

(** ** The monitor wait *)

Lemma wait_idle (w : list Event) (m : Manager) :
  mWaitForInternalDrain m = false ->
  wait_internal_drain w m = Ok (tt, m, []).
Proof. intros H. destruct w; simpl; rewrite H; reflexivity. Qed.

Lemma wait_woken (c : MediaDataDecoderCallback) (w : list Event) (m : Manager) :
  mActiveCallback m = Some c ->
  mWaitForInternalDrain m = true ->
  existsb is_DrainComplete w = true ->
  wait_internal_drain w m =
    Ok (tt, set_mWaitForInternalDrain false m,
        map (ToSink c) (before_DrainComplete w)).
Proof.
  intros Hc Hw. induction w as [|e w IH]; simpl; intros Hdc; [discriminate|].
  rewrite Hw. unfold bind.
  rewrite (notify_target e m Hc), Hw, andb_true_r.
  destruct (is_DrainComplete e); simpl in *.
  - rewrite wait_idle; reflexivity.
  - rewrite (IH Hdc). reflexivity.
Qed.

Lemma wait_never_woken (w : list Event) (m : Manager) :
  mWaitForInternalDrain m = true ->
  existsb is_DrainComplete w = false ->
  wait_internal_drain w m = Hang.
Proof.
  intros Hw. induction w as [|e w IH]; simpl; intros Hdc; rewrite Hw;
    [reflexivity|].
  apply orb_false_elim in Hdc. destruct Hdc as [He Hdc].
  unfold bind.
  destruct (mActiveCallback m) as [c|] eqn:Hc.
  - rewrite (notify_target e m Hc), He. simpl. rewrite (IH Hdc). reflexivity.
  - rewrite (notify_no_target e m Hc), (IH Hdc). reflexivity.
Qed.

(** ** Facts about lists of notifications *)

Lemma before_DrainComplete_clean (w : list Event) :
  ~ In EvDrainComplete (before_DrainComplete w).
Proof.
  induction w as [|e w IH]; simpl; [tauto|].
  destruct e; simpl; try tauto; intros [H|H]; try discriminate; tauto.
Qed.

Lemma absorb_first_clean (es : list Event) :
  existsb is_DrainComplete es = false -> absorb_first es = es.
Proof.
  induction es as [|e es IH]; simpl; [reflexivity|].
  destruct (is_DrainComplete e); simpl; [discriminate|].
  intros H. rewrite (IH H). reflexivity.
Qed.



Lemma absorb_first_heard (sync w : list Event) :
  absorb_first (heard sync w) =
    if existsb is_DrainComplete sync then absorb_first sync
    else sync ++ before_DrainComplete w.
Proof.
  unfold heard. destruct (existsb is_DrainComplete sync) eqn:E; [reflexivity|].
  induction sync as [|e sync IH]; simpl in *.
  - induction (before_DrainComplete w) as [|x l IHl] eqn:El; simpl;
      [reflexivity|].
    assert (Hx : is_DrainComplete x = false).
    { destruct x; try reflexivity.
      exfalso. apply (@before_DrainComplete_clean w). rewrite El. left.
      reflexivity. }
    rewrite Hx. f_equal.
    clear IHl. assert (Hl : ~ In EvDrainComplete l).
    { intros Hin. apply (@before_DrainComplete_clean w). rewrite El. right.
      exact Hin. }
    clear El. induction l as [|y l IHl]; simpl; [reflexivity|].
    destruct y; simpl; try (f_equal; apply IHl; intros Hin; apply Hl; right;
      exact Hin).
    exfalso. apply Hl. left. reflexivity.
  - apply orb_false_elim in E. destruct E as [He E].
    rewrite He. f_equal. apply IH. exact E.
Qed.

(** ** The hand-off, in closed form *)

Lemma same_proxy_refl (p : SharedDecoderProxy) : same_proxy p p = true.
Proof. apply Nat.eqb_refl. Qed.

Lemma Drain_of_active (a : SharedDecoderProxy) (m : Manager) :
  mActiveProxy m = Some a ->
  SharedDecoderProxy_Drain a m = call_decoder RDrain Drain_ m.
Proof.
  intros H. unfold SharedDecoderProxy_Drain, bind at 1, get.
  rewrite H. simpl. rewrite same_proxy_refl.
  destruct (call_decoder RDrain Drain_ m) as [[[x m'] o]| |]; reflexivity.
Qed.

Lemma Flush_of_active (a : SharedDecoderProxy) (m : Manager) :
  mActiveProxy m = Some a ->
  SharedDecoderProxy_Flush a m = call_decoder RFlush Flush_ m.
Proof.
  intros H. unfold SharedDecoderProxy_Flush, bind at 1, get.
  rewrite H. simpl. rewrite same_proxy_refl.
  destruct (call_decoder RFlush Flush_ m) as [[[x m'] o]| |]; reflexivity.
Qed.

(** SetIdle on anything but the active proxy does nothing. *)
Lemma SetIdle_not_active (p : option SharedDecoderProxy) (w : list Event)
  (m : Manager) :
  match p with Some q => is_active (mActiveProxy m) q | None => false end
    = false ->
  SharedDecoderManager_SetIdle p w m = Ok (tt, m, []).
Proof.
  intros H. unfold SharedDecoderManager_SetIdle, bind at 1, get.
  destruct p as [q|]; [|reflexivity].
  destruct (mActiveProxy m) as [a|]; [|reflexivity].
  simpl in H. rewrite H. reflexivity.
Qed.

(** The drain succeeds and is answered, from inside Drain() or from the
    task queue: drain, the callbacks heard less the first drain-complete,
    flush, the callbacks made inside Flush(). *)
Lemma SetIdle_drained (a p : SharedDecoderProxy) (c : MediaDataDecoderCallback)
  (d : D) (w : list Event) (m : Manager) :
  mActiveProxy m = Some a ->
  same_proxy a p = true ->
  mActiveCallback m = Some c ->
  mDecoder m = Some d ->
  rv (Drain_ d) = NS_OK ->
  existsb is_DrainComplete (now (Drain_ d)) || existsb is_DrainComplete w
    = true ->
  SharedDecoderManager_SetIdle (Some p) w m =
    Ok (tt,
        handed_off (next (Flush_ (next (Drain_ d)))) false m,
        ToDecoder RDrain
          :: map (ToSink c) (absorb_first (heard (now (Drain_ d)) w))
          ++ ToDecoder RFlush
          :: map (ToSink c) (now (Flush_ (next (Drain_ d))))).
Proof.
  intros Ha Hs Hc Hd Hrv Hans.
  unfold SharedDecoderManager_SetIdle, bind at 1, get.
  rewrite Ha, Hs. unfold bind at 1, modify at 1.
  unfold bind at 1.
  rewrite (@Drain_of_active a (set_mWaitForInternalDrain true m) Ha).
  rewrite (@call_decoder_armed c RDrain Drain_ d
             (set_mWaitForInternalDrain true m) Hd Hc eq_refl).
  rewrite Hrv. simpl NS_SUCCEEDED. cbv iota.
  rewrite absorb_first_heard.
  destruct (existsb is_DrainComplete (now (Drain_ d))) eqn:Esync; simpl negb.
  - unfold bind at 1. rewrite wait_idle by reflexivity.
    unfold bind at 1.
    rewrite Flush_of_active by exact Ha.
    rewrite (@call_decoder_idle c RFlush Flush_ (next (Drain_ d)));
      [| reflexivity | exact Hc | reflexivity].
    unfold modify. simpl. rewrite app_nil_r.
    unfold handed_off. destruct m; reflexivity.
  - simpl in Hans. unfold bind at 1.
    rewrite (@wait_woken c w); [| exact Hc | reflexivity | exact Hans].
    unfold bind at 1.
    rewrite Flush_of_active by exact Ha.
    rewrite (@call_decoder_idle c RFlush Flush_ (next (Drain_ d)));
      [| reflexivity | exact Hc | reflexivity].
    unfold modify. simpl. rewrite app_nil_r.
    rewrite (absorb_first_clean _ Esync), map_app, <- app_assoc.
    unfold handed_off. destruct m; reflexivity.
Qed.

(** The drain succeeds and no drain-complete ever comes: SetIdle never
    returns. *)
Lemma SetIdle_unanswered (a p : SharedDecoderProxy)
  (c : MediaDataDecoderCallback) (d : D) (w : list Event) (m : Manager) :
  mActiveProxy m = Some a ->
  same_proxy a p = true ->
  mActiveCallback m = Some c ->
  mDecoder m = Some d ->
  rv (Drain_ d) = NS_OK ->
  existsb is_DrainComplete (now (Drain_ d)) || existsb is_DrainComplete w
    = false ->
  SharedDecoderManager_SetIdle (Some p) w m = Hang.
Proof.
  intros Ha Hs Hc Hd Hrv Hans.
  apply orb_false_elim in Hans. destruct Hans as [Esync Ew].
  unfold SharedDecoderManager_SetIdle, bind at 1, get.
  rewrite Ha, Hs. unfold bind at 1, modify at 1.
  unfold bind at 1.
  rewrite (@Drain_of_active a (set_mWaitForInternalDrain true m) Ha).
  rewrite (@call_decoder_armed c RDrain Drain_ d
             (set_mWaitForInternalDrain true m) Hd Hc eq_refl).
  rewrite Hrv, Esync. simpl NS_SUCCEEDED. cbv iota. simpl negb.
  unfold bind at 1.
  rewrite wait_never_woken; [reflexivity | reflexivity | exact Ew].
Qed.

(** The drain is refused: no wait, whatever the task queue would have
    delivered.  The wait flag is lowered only by a drain-complete made
    inside Drain() or inside Flush(). *)
Lemma SetIdle_drain_refused (a p : SharedDecoderProxy)
  (c : MediaDataDecoderCallback) (d : D) (w : list Event) (m : Manager) :
  mActiveProxy m = Some a ->
  same_proxy a p = true ->
  mActiveCallback m = Some c ->
  mDecoder m = Some d ->
  rv (Drain_ d) = NS_ERROR_FAILURE ->
  SharedDecoderManager_SetIdle (Some p) w m =
    Ok (tt,
        handed_off (next (Flush_ (next (Drain_ d))))
          (negb (existsb is_DrainComplete (now (Drain_ d)))
           && negb (existsb is_DrainComplete (now (Flush_ (next (Drain_ d))))))
          m,
        ToDecoder RDrain
          :: map (ToSink c) (absorb_first (now (Drain_ d)))
          ++ ToDecoder RFlush
          :: map (ToSink c)
               (if existsb is_DrainComplete (now (Drain_ d))
                then now (Flush_ (next (Drain_ d)))
                else absorb_first (now (Flush_ (next (Drain_ d)))))).
Proof.
  intros Ha Hs Hc Hd Hrv.
  unfold SharedDecoderManager_SetIdle, bind at 1, get.
  rewrite Ha, Hs. unfold bind at 1, modify at 1.
  unfold bind at 1.
  rewrite (@Drain_of_active a (set_mWaitForInternalDrain true m) Ha).
  rewrite (@call_decoder_armed c RDrain Drain_ d
             (set_mWaitForInternalDrain true m) Hd Hc eq_refl).
  rewrite Hrv. simpl NS_SUCCEEDED. cbv iota.
  unfold bind at 1, ret at 1. unfold bind at 1.
  rewrite Flush_of_active by exact Ha.
  destruct (existsb is_DrainComplete (now (Drain_ d))) eqn:Esync; simpl negb.
  - rewrite (@call_decoder_idle c RFlush Flush_ (next (Drain_ d)));
      [| reflexivity | exact Hc | reflexivity].
    unfold modify. simpl. rewrite app_nil_r.
    unfold handed_off. destruct m; reflexivity.
  - rewrite (@call_decoder_armed c RFlush Flush_ (next (Drain_ d)));
      [| reflexivity | exact Hc | reflexivity].
    unfold modify. simpl. rewrite app_nil_r.
    unfold handed_off. destruct m; reflexivity.
Qed.

(** The active proxy is to be released but the manager has no decoder:
    the null mDecoder is dereferenced. *)
Lemma SetIdle_no_decoder (a p : SharedDecoderProxy) (w : list Event)
  (m : Manager) :
  mActiveProxy m = Some a ->
  same_proxy a p = true ->
  mDecoder m = None ->
  SharedDecoderManager_SetIdle (Some p) w m = Fault.
Proof.
  intros Ha Hs Hd.
  unfold SharedDecoderManager_SetIdle, bind at 1, get.
  rewrite Ha, Hs. unfold bind at 1, modify at 1.
  unfold bind at 1.
  rewrite (@Drain_of_active a (set_mWaitForInternalDrain true m) Ha).
  rewrite call_decoder_null by exact Hd. reflexivity.
Qed.

(** ** Taking a run apart *)

Lemma bind_Ok {A B : Type} (x : M A) (f : A -> M B) (m : Manager) (b : B)
  (m' : Manager) (o : list Action) :
  bind x f m = Ok (b, m', o) ->
  exists a m1 o1 o2,
    x m = Ok (a, m1, o1) /\ f a m1 = Ok (b, m', o2) /\ o = o1 ++ o2.
Proof.
  unfold bind. intros E.
  destruct (x m) as [[[a m1] o1]| |]; try discriminate.
  destruct (f a m1) as [[[b' m2] o2]| |] eqn:Ef; try discriminate.
  inversion E; subst. exists a, m1, o1, o2. auto.
Qed.

Lemma get_Ok (m x m' : Manager) (o : list Action) :
  get m = Ok (x, m', o) -> x = m /\ m' = m /\ o = [].
Proof. intros E. inversion E. auto. Qed.

Lemma ret_Ok {A : Type} (a x : A) (m m' : Manager) (o : list Action) :
  ret a m = Ok (x, m', o) -> x = a /\ m' = m /\ o = [].
Proof. intros E. inversion E. auto. Qed.

Lemma modify_Ok (f : Manager -> Manager) (m m' : Manager) (x : unit)
  (o : list Action) :
  modify f m = Ok (x, m', o) -> m' = f m /\ o = [].
Proof. intros E. inversion E. auto. Qed.

Lemma emit_Ok (a : Action) (m m' : Manager) (x : unit) (o : list Action) :
  emit a m = Ok (x, m', o) -> m' = m /\ o = [a].
Proof. intros E. inversion E. auto. Qed.

Ltac run_inv H :=
  lazymatch type of H with
  | bind _ _ _ = Ok _ =>
      let H1 := fresh "R" in
      let H2 := fresh "R" in
      apply bind_Ok in H;
      destruct H as (? & ? & ? & ? & H1 & H2 & ?);
      run_inv H1; run_inv H2
  | get _ = Ok _ => apply get_Ok in H; destruct H as (? & ? & ?)
  | ret _ _ = Ok _ => apply ret_Ok in H; destruct H as (? & ? & ?)
  | modify _ _ = Ok _ => apply modify_Ok in H; destruct H as (? & ?)
  | emit _ _ = Ok _ => apply emit_Ok in H; destruct H as (? & ?)
  | fault _ = Ok _ => discriminate H
  | hang _ = Ok _ => discriminate H
  | discard _ _ = Ok _ => unfold discard in H; run_inv H
  | _ => idtac
  end.

(** ** What the router and the decoder calls leave alone *)

Lemma frame_refl (m : Manager) : frame m m.
Proof. unfold frame. tauto. Qed.

Lemma frame_trans (m1 m2 m3 : Manager) :
  frame m1 m2 -> frame m2 m3 -> frame m1 m3.
Proof.
  unfold frame. intros H1 H2.
  destruct H1 as (A1 & A2 & A3 & A4 & A5 & A6 & A7 & A8 & A9 & A10).
  destruct H2 as (B1 & B2 & B3 & B4 & B5 & B6 & B7 & B8 & B9 & B10).
  repeat split; try congruence; tauto.
Qed.

Lemma frame_wait (v : bool) (m : Manager) :
  frame m (set_mWaitForInternalDrain v m).
Proof. unfold frame. simpl. tauto. Qed.

Lemma frame_decoder (d d' : D) (m : Manager) :
  mDecoder m = Some d -> frame m (set_mDecoder (Some d') m).
Proof.
  intros H. unfold frame. simpl. rewrite H.
  repeat split; try reflexivity; intros X; discriminate X.
Qed.

Lemma notify_frame (e : Event) (m m' : Manager) (x : unit) (o : list Action) :
  notify e m = Ok (x, m', o) -> frame m m'.
Proof.
  destruct (mActiveCallback m) as [c|] eqn:Hc.
  - rewrite (notify_target e m Hc).
    destruct (is_DrainComplete e && mWaitForInternalDrain m);
      intros E; inversion E; subst; [apply frame_wait | apply frame_refl].
  - rewrite (notify_no_target e m Hc). intros E; inversion E; subst.
    apply frame_refl.
Qed.

Lemma notify_all_frame (es : list Event) (m m' : Manager) (x : unit)
  (o : list Action) :
  notify_all es m = Ok (x, m', o) -> frame m m'.
Proof.
  revert m m' x o. induction es as [|e es IH]; simpl; intros m m' x o E.
  - run_inv E. subst. apply frame_refl.
  - run_inv E. eapply frame_trans; [eapply notify_frame | eapply IH];
      eassumption.
Qed.

Lemma wait_frame (w : list Event) (m m' : Manager) (x : unit)
  (o : list Action) :
  wait_internal_drain w m = Ok (x, m', o) -> frame m m'.
Proof.
  revert m m' x o. induction w as [|e w IH]; simpl; intros m m' x o E;
    destruct (mWaitForInternalDrain m); try discriminate E;
    try (inversion E; subst; apply frame_refl).
  run_inv E. eapply frame_trans; [eapply notify_frame | eapply IH];
    eassumption.
Qed.

Lemma call_decoder_frame (r : Request) (op : D -> Reply D) (m m' : Manager)
  (x : nsresult) (o : list Action) :
  call_decoder r op m = Ok (x, m', o) -> frame m m'.
Proof.
  unfold call_decoder. intros E. run_inv E. subst.
  destruct (mDecoder _) as [d|] eqn:Hd; run_inv R0. subst.
  eapply frame_trans; [eapply frame_decoder; exact Hd|].
  eapply notify_all_frame. eassumption.
Qed.

Lemma Proxy_Flush_frame (this : SharedDecoderProxy) (m m' : Manager)
  (x : nsresult) (o : list Action) :
  SharedDecoderProxy_Flush this m = Ok (x, m', o) -> frame m m'.
Proof.
  unfold SharedDecoderProxy_Flush. intros E. run_inv E. subst.
  destruct (is_active _ _).
  - eapply call_decoder_frame. eassumption.
  - run_inv R0. subst. apply frame_refl.
Qed.

Lemma Proxy_Drain_frame (this : SharedDecoderProxy) (m m' : Manager)
  (x : nsresult) (o : list Action) :
  SharedDecoderProxy_Drain this m = Ok (x, m', o) -> frame m m'.
Proof.
  unfold SharedDecoderProxy_Drain. intros E. run_inv E. subst.
  destruct (is_active _ _).
  - eapply call_decoder_frame. eassumption.
  - run_inv R0. subst. apply frame_refl.
Qed.

(** ** Every entry point, symbolically *)

Ltac exec H :=
  lazymatch type of H with
  | bind _ _ _ = Ok _ =>
      let H1 := fresh "R" in
      let H2 := fresh "R" in
      apply bind_Ok in H;
      destruct H as (? & ? & ? & ? & H1 & H2 & ?);
      exec H1; exec H2
  | get _ = Ok _ => apply get_Ok in H; destruct H as (? & ? & ?); subst
  | ret _ _ = Ok _ => apply ret_Ok in H; destruct H as (? & ? & ?); subst
  | modify _ _ = Ok _ => apply modify_Ok in H; destruct H as (? & ?); subst
  | emit _ _ = Ok _ => apply emit_Ok in H; destruct H as (? & ?); subst
  | fault _ = Ok _ => discriminate H
  | hang _ = Ok _ => discriminate H
  | Fault = Ok _ => discriminate H
  | Hang = Ok _ => discriminate H
  | call_decoder _ _ _ = Ok _ => apply call_decoder_frame in H
  | notify _ _ = Ok _ => apply notify_frame in H
  | notify_all _ _ = Ok _ => apply notify_all_frame in H
  | wait_internal_drain _ _ = Ok _ => apply wait_frame in H
  | SharedDecoderProxy_Flush _ _ = Ok _ => apply Proxy_Flush_frame in H
  | SharedDecoderProxy_Drain _ _ = Ok _ => apply Proxy_Drain_frame in H
  | discard _ _ = Ok _ => unfold discard in H; exec H
  | SharedDecoderManager_DrainComplete _ = Ok _ =>
      unfold SharedDecoderManager_DrainComplete in H; exec H
  | SharedDecoderManager_SetIdle _ _ _ = Ok _ =>
      unfold SharedDecoderManager_SetIdle in H; exec H
  | SharedDecoderManager_Select _ _ _ = Ok _ =>
      unfold SharedDecoderManager_Select in H; exec H
  | SharedDecoderManager_CreateVideoDecoder _ _ _ _ _ _ _ = Ok _ =>
      unfold SharedDecoderManager_CreateVideoDecoder in H; exec H
  | SharedDecoderManager_Recreate _ _ = Ok _ =>
      unfold SharedDecoderManager_Recreate in H; exec H
  | SharedDecoderManager_InitDecoder _ = Ok _ =>
      unfold SharedDecoderManager_InitDecoder in H; exec H
  | SharedDecoderManager_Shutdown _ _ = Ok _ =>
      unfold SharedDecoderManager_Shutdown in H; exec H
  | init_promise_settles _ = Ok _ =>
      unfold init_promise_settles in H; exec H
  | InitDecoder_resolved _ _ = Ok _ =>
      unfold InitDecoder_resolved in H; exec H
  | InitDecoder_rejected _ _ = Ok _ =>
      unfold InitDecoder_rejected in H; exec H
  | SharedDecoderProxy_Init _ _ _ = Ok _ =>
      unfold SharedDecoderProxy_Init in H; exec H
  | SharedDecoderProxy_Input _ _ _ _ = Ok _ =>
      unfold SharedDecoderProxy_Input in H; exec H
  | SharedDecoderProxy_Shutdown _ _ _ = Ok _ =>
      unfold SharedDecoderProxy_Shutdown in H; exec H
  | SharedDecoderProxy_destroy _ _ _ = Ok _ =>
      unfold SharedDecoderProxy_destroy in H; exec H
  | SharedDecoderProxy_IsHardwareAccelerated _ _ = Ok _ =>
      unfold SharedDecoderProxy_IsHardwareAccelerated in H; exec H
  | (match ?x with _ => _ end) _ = Ok _ =>
      let E := fresh "E" in destruct x eqn:E; exec H
  | _ => idtac
  end.

Ltac unframe :=
  unfold frame in *;
  repeat match goal with
         | H : _ /\ _ |- _ => destruct H
         end;
  simpl in *.

(** Only Recreate lowers mInit. *)
Lemma step_keeps_mInit (op : Op) :
  is_Recreate op = false ->
  keeps (fun m => mInit m = true) (step op).
Proof.
  intros Hop m x m' o HQ E.
  destruct op; simpl in Hop; try discriminate Hop; simpl in E; exec E;
    unframe; congruence.
Qed.

(** Once a proxy has been selected the router keeps a target for good:
    nothing resets mActiveCallback to null. *)
Lemma step_keeps_target (op : Op) :
  keeps (fun m => mActiveCallback m <> None) (step op).
Proof.
  intros m x m' o HQ E.
  destruct op; simpl in E; exec E; unframe; congruence.
Qed.

Lemma step_keeps_callback_of_active (op : Op) :
  keeps callback_of_active (step op).
Proof.
  intros m x m' o HQ E. unfold callback_of_active in *.
  destruct op; simpl in E; exec E; unframe; intros q Hq;
    try discriminate Hq;
    try (injection Hq as <-; reflexivity);
    try (apply HQ; congruence);
    try (assert (Hm : mActiveProxy m = Some q) by congruence;
         specialize (HQ q Hm); congruence);
    try congruence.
Qed.

Lemma step_keeps_factory_known (op : Op) :
  keeps factory_known (step op).
Proof.
  intros m x m' o HQ E. unfold factory_known in *.
  destruct op; simpl in E; exec E; unframe;
    try congruence; try tauto;
    try (intros Hd X; apply HQ; [tauto | congruence]);
    try (intros Hd X; apply HQ; [intros Y | congruence]; tauto);
    try (intros Hd;
         assert (Hm : mPDM m <> None)
           by (apply HQ;
               first [discriminate | congruence | intuition congruence]);
         congruence).
Qed.

Lemma run_keeps (Q : Manager -> Prop) (ops : list Op) :
  (forall op, keeps Q (step op)) -> keeps Q (run ops).
Proof.
  intros Hstep. induction ops as [|op ops IH]; simpl.
  - apply keeps_ret.
  - apply keeps_bind; [apply Hstep | intros _; exact IH].
Qed.

Lemma reachable_callback_of_active (m : Manager) :
  reachable m -> callback_of_active m.
Proof.
  intros (ops & o & E).
  eapply (run_keeps ops step_keeps_callback_of_active); [|exact E].
  intros q Hq. discriminate Hq.
Qed.

Lemma reachable_factory_known (m : Manager) :
  reachable m -> factory_known m.
Proof.
  intros (ops & o & E).
  eapply (run_keeps ops step_keeps_factory_known); [|exact E].
  intros Hd. exfalso. apply Hd. reflexivity.
Qed.

(** ** Hand-off on Select *)

Lemma is_active_Some (a p : SharedDecoderProxy) :
  is_active (Some a) p = same_proxy a p.
Proof. reflexivity. Qed.

(** Select of a proxy that is not the active one: SetIdle on the active
    proxy, then the two assignments. *)
Lemma Select_other (aProxy : SharedDecoderProxy) (w : list Event)
  (m idle : Manager) (o : list Action) :
  is_active (mActiveProxy m) aProxy = false ->
  SharedDecoderManager_SetIdle (mActiveProxy m) w m = Ok (tt, idle, o) ->
  SharedDecoderManager_Select aProxy w m =
    Ok (tt,
        set_mActiveCallback (Some (mCallback aProxy))
          (set_mActiveProxy (Some aProxy) idle),
        o).
Proof.
  intros Hn Hi. unfold SharedDecoderManager_Select, bind at 1, get.
  rewrite Hn. unfold bind at 1. rewrite Hi.
  unfold bind, modify. simpl. rewrite app_nil_r. reflexivity.
Qed.

Lemma requests_of_deliveries (c : MediaDataDecoderCallback) (es : list Event) :
  requests (map (ToSink c) es) = [].
Proof.
  unfold requests. induction es as [|e es IH]; simpl; [reflexivity | exact IH].
Qed.

Lemma requests_of_hand_off (c : MediaDataDecoderCallback)
  (mid post : list Event) :
  requests (ToDecoder RDrain :: map (ToSink c) mid
              ++ ToDecoder RFlush :: map (ToSink c) post)
    = [ToDecoder RDrain; ToDecoder RFlush].
Proof.
  unfold requests. simpl. rewrite filter_app. simpl.
  fold (requests (map (ToSink c) mid)). fold (requests (map (ToSink c) post)).
  rewrite !requests_of_deliveries. reflexivity.
Qed.


(** ** A refused drain *)

(** C6.  When the drain request made by SetIdle is refused, SetIdle returns
    whatever the task queue delivers or fails to deliver, also when no
    drain-complete ever comes: it makes the drain request, then the flush
    request, forwarding in between and after only what the decoder said
    inside the two calls, and leaves no proxy active. *)
Theorem SetIdle_refused_drain_does_not_wait
  (A p : SharedDecoderProxy) (d : D) (w : list Event) (m : Manager) :
  callback_of_active m ->
  mActiveProxy m = Some A ->
  same_proxy A p = true ->
  mDecoder m = Some d ->
  NS_SUCCEEDED (rv (Drain_ d)) = false ->
  exists (mid post : list Event) (idle : Manager),
    SharedDecoderManager_SetIdle (Some p) w m =
      Ok (tt, idle,
          ToDecoder RDrain :: map (ToSink (mCallback A)) mid
            ++ ToDecoder RFlush :: map (ToSink (mCallback A)) post) /\
    mid = absorb_first (now (Drain_ d)) /\
    mActiveProxy idle = None /\
    mDecoder idle = Some (next (Flush_ (next (Drain_ d)))) /\
    SharedDecoderManager_SetIdle (Some p) [] m
      = SharedDecoderManager_SetIdle (Some p) w m.
Proof.
  intros Hinv Ha Hs Hd Hrv.
  assert (Hfail : rv (Drain_ d) = NS_ERROR_FAILURE).
  { destruct (rv (Drain_ d)); [discriminate Hrv | reflexivity]. }
  pose proof (fun w' => @SetIdle_drain_refused A p (mCallback A) d w' m Ha Hs
                          (Hinv A Ha) Hd Hfail) as Hidle.
  eexists _, _, _. split; [apply Hidle|].
  split; [reflexivity|]. split; [reflexivity|]. split; [reflexivity|].
  rewrite (Hidle []), (Hidle w). reflexivity.
Qed.

(** ** Drain on a proxy that is not active *)

(** C7.  Drain() on a proxy that is not the active one returns NS_OK, calls
    DrainComplete on that proxy's own callback and makes no other call;
    every field of the manager, the decoder with it, is as before. *)
Theorem Drain_on_inactive_proxy (this : SharedDecoderProxy) (m : Manager) :
  is_active (mActiveProxy m) this = false ->
  SharedDecoderProxy_Drain this m =
    Ok (NS_OK, m, [ToSink (mCallback this) EvDrainComplete]).
Proof.
  intros H. unfold SharedDecoderProxy_Drain, bind at 1, get.
  rewrite H. reflexivity.
Qed.

(** When the drain is never answered Select does not return, and the new
    proxy is not recorded. *)
Lemma Select_unanswered_hangs (A B : SharedDecoderProxy) (d : D)
  (w : list Event) (m : Manager) :
  callback_of_active m ->
  mActiveProxy m = Some A ->
  same_proxy A B = false ->
  mDecoder m = Some d ->
  rv (Drain_ d) = NS_OK ->
  existsb is_DrainComplete (now (Drain_ d)) || existsb is_DrainComplete w
    = false ->
  SharedDecoderManager_Select B w m = Hang.
Proof.
  intros Hinv Ha Hne Hd Hrv Hans.
  assert (Hn : is_active (mActiveProxy m) B = false)
    by (rewrite Ha; exact Hne).
  pose proof (@SetIdle_unanswered A A (mCallback A) d w m Ha (same_proxy_refl A)
                (Hinv A Ha) Hd Hrv Hans) as Hh.
  rewrite <- Ha in Hh.
  unfold SharedDecoderManager_Select, bind at 1, get.
  rewrite Hn. unfold bind at 1. rewrite Hh. reflexivity.
Qed.

(** ** The flag a refused drain leaves behind *)




(** ** Releasing a proxy *)

(** Whenever the hand-off can complete, SetIdle on the active proxy
    returns, having sent the decoder a drain and then a flush, and leaves
    no proxy active. *)
Lemma SetIdle_releases (a p : SharedDecoderProxy) (w : list Event)
  (m : Manager) :
  callback_of_active m ->
  mActiveProxy m = Some a ->
  same_proxy a p = true ->
  can_release w m = true ->
  exists (idle : Manager) (o : list Action),
    SharedDecoderManager_SetIdle (Some p) w m = Ok (tt, idle, o) /\
    requests o = [ToDecoder RDrain; ToDecoder RFlush] /\
    mActiveProxy idle = None.
Proof.
  intros Hinv Ha Hs Hcan. unfold can_release in Hcan.
  destruct (mDecoder m) as [d|] eqn:Hd; [|discriminate Hcan].
  destruct (rv (Drain_ d)) eqn:Hrv; simpl in Hcan.
  - eexists _, _. split.
    + apply (@SetIdle_drained a p (mCallback a) d w m Ha Hs (Hinv a Ha) Hd Hrv
               Hcan).
    + split; [apply requests_of_hand_off | reflexivity].
  - eexists _, _. split.
    + apply (@SetIdle_drain_refused a p (mCallback a) d w m Ha Hs (Hinv a Ha)
               Hd Hrv).
    + split; [apply requests_of_hand_off | reflexivity].
Qed.




(** ** InitDecoder without a decoder *)

Lemma bind_run {A B : Type} (x : M A) (f : A -> M B) (m m1 m2 : Manager)
  (a : A) (b : B) (o1 o2 : list Action) :
  x m = Ok (a, m1, o1) ->
  f a m1 = Ok (b, m2, o2) ->
  bind x f m = Ok (b, m2, o1 ++ o2).
Proof. intros Hx Hf. unfold bind. rewrite Hx, Hf. reflexivity. Qed.

Lemma call_decoder_returns (r : Request) (op : D -> Reply D) (d : D)
  (m : Manager) :
  mDecoder m = Some d ->
  exists (m' : Manager) (o : list Action),
    call_decoder r op m = Ok (rv (op d), m', ToDecoder r :: o) /\
    frame m m' /\
    mDecoder m' = Some (next (op d)) /\
    forallb is_ToSink o = true.
Proof.
  intros Hd.
  assert (Hs : forall c es, forallb is_ToSink (map (ToSink c) es) = true).
  { intros c es. induction es as [|e es IH]; simpl; [reflexivity | exact IH]. }
  destruct (mActiveCallback m) as [c|] eqn:Hc;
    [destruct (mWaitForInternalDrain m) eqn:Hw|].
  - pose proof (@call_decoder_armed c r op d m Hd Hc Hw) as E.
    eexists _, _. split; [exact E|].
    split; [exact (call_decoder_frame _ _ _ E)|].
    split; [reflexivity | apply Hs].
  - pose proof (@call_decoder_idle c r op d m Hd Hc Hw) as E.
    eexists _, _. split; [exact E|].
    split; [exact (call_decoder_frame _ _ _ E)|].
    split; [reflexivity | apply Hs].
  - pose proof (@call_decoder_no_target r op d m Hd Hc) as E.
    exists (set_mDecoder (Some (next (op d))) m), []. split; [exact E|].
    split; [exact (call_decoder_frame _ _ _ E)|].
    split; reflexivity.
Qed.

(** Shutdown of the manager always returns, and leaves it without a
    decoder and with mInit as it was. *)
Lemma Shutdown_returns (w : list Event) (m : Manager) :
  exists (m' : Manager) (o : list Action),
    SharedDecoderManager_Shutdown w m = Ok (tt, m', o) /\
    mDecoder m' = None /\
    mInit m' = mInit m.
Proof.
  assert (H1 : exists m1 o1,
             (match mDecoder m with
              | Some _ =>
                  bind (call_decoder RShutdown Shutdown_)
                    (fun _ => modify (set_mDecoder None))
              | None => ret tt
              end) m = Ok (tt, m1, o1) /\
             mDecoder m1 = None /\ mInit m1 = mInit m).
  { destruct (mDecoder m) as [d|] eqn:Hd.
    - destruct (@call_decoder_returns RShutdown Shutdown_ d m Hd)
        as (m1 & o1 & E & Hf & _).
      eexists _, _. split.
      + eapply bind_run; [exact E | reflexivity].
      + unfold frame in Hf. simpl. split; [reflexivity | tauto].
    - exists m, []. auto. }
  destruct H1 as (m1 & o1 & E1 & Hd1 & Hi1).
  assert (H2 : exists m2 o2,
             (if mTaskQueue (set_mPDM None m1)
              then bind (emit TaskQueueShutdown)
                     (fun _ => bind (notify_all w)
                        (fun _ => modify (set_mTaskQueue false)))
              else ret tt) (set_mPDM None m1) = Ok (tt, m2, o2) /\
             mDecoder m2 = None /\ mInit m2 = mInit m).
  { destruct (mTaskQueue (set_mPDM None m1)).
    - destruct (notify_all_returns w (set_mPDM None m1)) as (m2 & o2 & En).
      pose proof (notify_all_frame _ _ En) as Hf.
      eexists _, _. split.
      + eapply bind_run; [reflexivity|].
        eapply bind_run; [exact En | reflexivity].
      + unfold frame in Hf. simpl in *. split; [tauto | intuition congruence].
    - eexists _, _. split; [reflexivity|]. simpl. auto. }
  destruct H2 as (m2 & o2 & E2 & Hd2 & Hi2).
  eexists _, _. split.
  - unfold SharedDecoderManager_Shutdown.
    eapply bind_run; [reflexivity|].
    eapply bind_run; [exact E1|].
    eapply bind_run; [reflexivity|].
    eapply bind_run; [reflexivity|].
    eapply bind_run; [exact E2 | reflexivity].
  - simpl. auto.
Qed.

(** C9.  On a manager that holds no decoder InitDecoder returns, whatever
    mInit is, a promise already resolved with kVideoTrack; it changes no
    field and makes no call.  Shutdown always returns and leaves the
    manager in that situation; so does a Recreate that returns false, and
    it leaves mInit as it was. *)
Theorem InitDecoder_without_decoder_resolves :
  (forall m : Manager,
     mDecoder m = None ->
     SharedDecoderManager_InitDecoder m =
       Ok (CreateAndResolve kVideoTrack, m, [])) /\
  (forall (w : list Event) (m : Manager),
     exists (m' : Manager) (o : list Action),
       SharedDecoderManager_Shutdown w m = Ok (tt, m', o) /\
       mDecoder m' = None /\
       mInit m' = mInit m) /\
  (forall (aConfig : VideoInfo) (m m' : Manager) (o : list Action),
     SharedDecoderManager_Recreate aConfig m = Ok (false, m', o) ->
     mDecoder m' = None /\ mInit m' = mInit m).
Proof.
  split; [|split].
  - intros m Hd. unfold SharedDecoderManager_InitDecoder, bind, get.
    rewrite Hd. destruct (mInit m); reflexivity.
  - intros w m. apply Shutdown_returns.
  - intros c m m' o E. exec E; unframe; try discriminate.
    split; [assumption | congruence].
Qed.

(** ** Recreate *)

Lemma Recreate_runs (aConfig : VideoInfo) (d : D) (p : P) (m : Manager) :
  mDecoder m = Some d ->
  mPDM m = Some p ->
  exists (m2 : Manager) (o1 o2 : list Action),
    frame m m2 /\
    forallb is_ToSink o1 = true /\
    forallb is_ToSink o2 = true /\
    SharedDecoderManager_Recreate aConfig m =
      Ok (match CreateDecoder p aConfig (mLayersBackend m) (mImageContainer m)
          with Some _ => true | None => false end,
          match CreateDecoder p aConfig (mLayersBackend m) (mImageContainer m)
          with
          | Some d' => set_mInit false (set_mDecoder (Some d') m2)
          | None => set_mDecoder None m2
          end,
          ToDecoder RFlush :: o1
            ++ ToDecoder RShutdown :: o2
            ++ [ToFactory aConfig (mLayersBackend m) (mImageContainer m)]).
Proof.
  intros Hd Hp.
  destruct (@call_decoder_returns RFlush Flush_ d m Hd)
    as (m1 & o1 & E1 & F1 & D1 & S1).
  destruct (@call_decoder_returns RShutdown Shutdown_ _ m1 D1)
    as (m2 & o2 & E2 & F2 & D2 & S2).
  pose proof (frame_trans F1 F2) as F.
  exists m2, o1, o2. split; [exact F|]. split; [exact S1|]. split; [exact S2|].
  assert (Hp2 : mPDM m2 = Some p) by (unfold frame in F; intuition congruence).
  assert (Hl : mLayersBackend m2 = mLayersBackend m)
    by (unfold frame in F; tauto).
  assert (Hi : mImageContainer m2 = mImageContainer m)
    by (unfold frame in F; tauto).
  unfold SharedDecoderManager_Recreate.
  replace (ToDecoder RFlush :: o1 ++ ToDecoder RShutdown :: o2
             ++ [ToFactory aConfig (mLayersBackend m) (mImageContainer m)])
    with ((ToDecoder RFlush :: o1)
            ++ (ToDecoder RShutdown :: o2)
            ++ [] ++ [ToFactory aConfig (mLayersBackend m) (mImageContainer m)]
            ++ [] ++ [] ++ [])
    by (simpl; rewrite <- ?app_assoc; reflexivity).
  eapply bind_run; [exact E1|].
  eapply bind_run; [exact E2|].
  eapply bind_run; [reflexivity|].
  cbv beta. rewrite Hp2, Hl, Hi.
  eapply bind_run; [reflexivity|].
  eapply bind_run; [reflexivity|].
  eapply bind_run; [reflexivity|].
  cbv beta. simpl mDecoder.
  destruct (CreateDecoder p aConfig (mLayersBackend m) (mImageContainer m));
    reflexivity.
Qed.

(** C4.  Recreate(aConfig) on a manager that holds a decoder and, as every
    reachable manager that holds one does, knows its factory.  Recreate
    returns, and its calls are, in order: Flush on the decoder held, Shutdown
    on it, then the request to the factory for aConfig; in between only the
    callbacks that the decoder makes inside the two calls are forwarded.
    When the factory delivers, the result is true, the new decoder is held,
    mInit is false and mActiveProxy is as before the call.  When it does
    not, the result is false (and no decoder is held). *)
Theorem Recreate_flushes_shuts_down_then_creates (aConfig : VideoInfo) (d : D)
  (m : Manager) :
  factory_known m ->
  mDecoder m = Some d ->
  exists (p : P) (b : bool) (m' : Manager) (o1 o2 : list Action),
    mPDM m = Some p /\
    SharedDecoderManager_Recreate aConfig m =
      Ok (b, m',
          ToDecoder RFlush :: o1
            ++ ToDecoder RShutdown :: o2
            ++ [ToFactory aConfig (mLayersBackend m) (mImageContainer m)]) /\
    forallb is_ToSink o1 = true /\
    forallb is_ToSink o2 = true /\
    mActiveProxy m' = mActiveProxy m /\
    match CreateDecoder p aConfig (mLayersBackend m) (mImageContainer m) with
    | Some d' => b = true /\ mDecoder m' = Some d' /\ mInit m' = false
    | None => b = false /\ mDecoder m' = None /\ mInit m' = mInit m
    end.
Proof.
  intros Hk Hd.
  destruct (mPDM m) as [p|] eqn:Hp.
  2:{ exfalso. apply Hk; [rewrite Hd; discriminate | exact Hp]. }
  destruct (@Recreate_runs aConfig d p m Hd Hp)
    as (m2 & o1 & o2 & F & S1 & S2 & E).
  exists p. eexists _, _, o1, o2.
  split; [reflexivity|]. split; [exact E|]. split; [exact S1|].
  split; [exact S2|].
  unfold frame in F.
  destruct (CreateDecoder p aConfig (mLayersBackend m) (mImageContainer m));
    simpl; intuition.
Qed.

(** ** mInit is lowered by Recreate alone *)

(** C5.  An entry point other than Recreate (a method of the manager or of
    a proxy, a notification from the decoder, the settling of the init
    promise) that starts with mInit true ends with mInit true.  Recreate,
    when the factory delivers, ends with mInit false. *)
Theorem only_Recreate_lowers_mInit :
  (forall (op : Op) (m m' : Manager) (o : list Action),
     is_Recreate op = false ->
     mInit m = true ->
     step op m = Ok (tt, m', o) ->
     mInit m' = true) /\
  (forall (aConfig : VideoInfo) (d d' : D) (p : P) (m : Manager),
     mDecoder m = Some d ->
     mPDM m = Some p ->
     CreateDecoder p aConfig (mLayersBackend m) (mImageContainer m) = Some d' ->
     exists (m' : Manager) (o : list Action),
       step (OpRecreate aConfig) m = Ok (tt, m', o) /\ mInit m' = false).
Proof.
  split.
  - intros op m m' o Hop Hi E.
    exact (@step_keeps_mInit op Hop m tt m' o Hi E).
  - intros c d d' p m Hd Hp Hc.
    destruct (@Recreate_runs c d p m Hd Hp) as (m2 & o1 & o2 & _ & _ & _ & E).
    rewrite Hc in E.
    eexists _, _. split.
    + simpl. unfold discard. eapply bind_run; [exact E | reflexivity].
    + reflexivity.
Qed.

(** ** The router's target *)

Lemma SetIdle_keeps_target (p : option SharedDecoderProxy) (w : list Event)
  (m m' : Manager) (o : list Action) :
  SharedDecoderManager_SetIdle p w m = Ok (tt, m', o) ->
  mActiveCallback m' = mActiveCallback m.
Proof. intros E. exec E; unframe; congruence. Qed.

(** C2, as the code has it.  Take a manager on which mActiveCallback is the
    callback of the active proxy whenever there is one, as it is on every
    reachable manager.  An Output, Error, InputExhausted or
    ReleaseMediaResources notification is forwarded unchanged to the
    callback held in mActiveCallback, and is dropped only when that is
    still null; no field of the manager is touched.  So while a proxy is
    active the notification reaches that proxy's own callback.  SetIdle
    does not reset mActiveCallback, and no entry point ever makes it null
    again: after a proxy is released, and until another is selected,
    notifications still reach the callback of the proxy selected last. *)
Theorem router_forwards_to_last_selected (m : Manager) (e : Event) :
  callback_of_active m ->
  is_DrainComplete e = false ->
  notify e m =
    Ok (tt, m,
        match mActiveCallback m with
        | Some cb => [ToSink cb e]
        | None => []
        end) /\
  (forall p : SharedDecoderProxy,
     mActiveProxy m = Some p ->
     notify e m = Ok (tt, m, [ToSink (mCallback p) e])) /\
  (forall (p : option SharedDecoderProxy) (w : list Event) (m' : Manager)
          (o : list Action),
     SharedDecoderManager_SetIdle p w m = Ok (tt, m', o) ->
     mActiveCallback m' = mActiveCallback m) /\
  (forall (op : Op) (m' : Manager) (o : list Action),
     mActiveCallback m <> None ->
     step op m = Ok (tt, m', o) ->
     mActiveCallback m' <> None).
Proof.
  intros Hinv He.
  assert (Hn : notify e m =
                 Ok (tt, m,
                     match mActiveCallback m with
                     | Some cb => [ToSink cb e]
                     | None => []
                     end)).
  { destruct (mActiveCallback m) as [c|] eqn:Hc.
    - rewrite (notify_target e m Hc), He. reflexivity.
    - apply notify_no_target. exact Hc. }
  split; [exact Hn|]. split; [|split].
  - intros p Hp. rewrite Hn, (Hinv p Hp). reflexivity.
  - intros p w m' o E. exact (SetIdle_keeps_target _ _ _ E).
  - intros op m' o Hc E. exact (@step_keeps_target op m tt m' o Hc E).
Qed.

(** ** InitDecoder *)

Lemma InitDecoder_when_initialized (m : Manager) :
  mInit m = true ->
  SharedDecoderManager_InitDecoder m = Ok (CreateAndResolve kVideoTrack, m, []).
Proof.
  intros Hi. unfold SharedDecoderManager_InitDecoder, bind, get.
  rewrite Hi. reflexivity.
Qed.

Lemma InitDecoder_first (d : D) (m : Manager) :
  mInit m = false ->
  mDecoder m = Some d ->
  mDecoderInitPromiseRequest m = None ->
  SharedDecoderManager_InitDecoder m =
    Ok (FromHolder,
        set_mDecoderInitPromiseRequest (Some (fst (Init_ d)))
          (set_mDecoder (Some (snd (Init_ d)))
             (set_mDecoderInitPromise true m)),
        [ToDecoder RInit]).
Proof.
  intros Hi Hd Hr. unfold SharedDecoderManager_InitDecoder, bind at 1, get.
  rewrite Hi, Hd, Hr. reflexivity.
Qed.

(** Calls made once mInit is true: none reaches the decoder, none changes
    the manager, each hands back a promise resolved with kVideoTrack. *)
Lemma init_rounds_when_initialized (n : nat) (m : Manager) :
  mInit m = true ->
  mDecoderInitPromiseRequest m = None ->
  init_rounds n m = Ok (repeat (CreateAndResolve kVideoTrack) n, m, []).
Proof.
  intros Hi Hr. induction n as [|n IH]; [reflexivity|].
  simpl init_rounds.
  change (@nil Action) with ([] ++ [] ++ [] ++ @nil Action).
  eapply bind_run; [apply InitDecoder_when_initialized; exact Hi|].
  eapply bind_run.
  { unfold init_promise_settles, bind, get. rewrite Hr. reflexivity. }
  eapply bind_run; [exact IH | reflexivity].
Qed.

(** C3, as the code has it.  A manager holds a decoder, mInit is false and
    no init is in flight.  InitDecoder sends the decoder exactly one init
    request and hands back the shared pending promise.  When the decoder's
    init succeeds with track type t, mInit becomes true and the shared
    promise is resolved with t; from then on any number of calls send the
    decoder nothing, change nothing, and each hands back a promise already
    resolved with kVideoTrack, whatever t was; so n+1 calls in a row make
    one init request in all.  When the decoder's init fails with a reason,
    the shared promise is rejected with that reason, mInit stays false, and
    the next call sends a new init request. *)
Theorem InitDecoder_inits_once (d : D) (m : Manager) :
  mInit m = false ->
  mDecoder m = Some d ->
  mDecoderInitPromiseRequest m = None ->
  exists m1 : Manager,
    SharedDecoderManager_InitDecoder m =
      Ok (FromHolder, m1, [ToDecoder RInit]) /\
    mInit m1 = false /\
    match fst (Init_ d) with
    | Resolve t =>
        exists m2 : Manager,
          init_promise_settles m1 =
            Ok (tt, m2, [InitPromiseSettled (Resolve t)]) /\
          mInit m2 = true /\
          (forall n : nat,
             init_rounds n m2 =
               Ok (repeat (CreateAndResolve kVideoTrack) n, m2, [])) /\
          (forall n : nat,
             init_rounds (S n) m =
               Ok (FromHolder :: repeat (CreateAndResolve kVideoTrack) n, m2,
                   [ToDecoder RInit; InitPromiseSettled (Resolve t)]))
    | Reject r =>
        exists m2 m3 : Manager,
          init_promise_settles m1 =
            Ok (tt, m2, [InitPromiseSettled (Reject r)]) /\
          mInit m2 = false /\
          SharedDecoderManager_InitDecoder m2 =
            Ok (FromHolder, m3, [ToDecoder RInit])
    end.
Proof.
  intros Hi Hd Hr.
  pose proof (InitDecoder_first m Hi Hd Hr) as E1.
  eexists. split; [exact E1|]. split; [exact Hi|].
  destruct (fst (Init_ d)) as [t|r] eqn:Ho.
  - eexists. split; [reflexivity|]. split; [reflexivity|].
    assert (Hlater : forall n : nat,
               init_rounds n
                 (set_mDecoderInitPromise false
                    (set_mInit true
                       (set_mDecoderInitPromiseRequest None
                          (set_mDecoderInitPromiseRequest (Some (Resolve t))
                             (set_mDecoder (Some (snd (Init_ d)))
                                (set_mDecoderInitPromise true m))))))
               = Ok (repeat (CreateAndResolve kVideoTrack) n,
                     set_mDecoderInitPromise false
                       (set_mInit true
                          (set_mDecoderInitPromiseRequest None
                             (set_mDecoderInitPromiseRequest (Some (Resolve t))
                                (set_mDecoder (Some (snd (Init_ d)))
                                   (set_mDecoderInitPromise true m))))),
                     [])).
    { intros n. apply init_rounds_when_initialized; reflexivity. }
    split; [exact Hlater|].
    intros n. simpl init_rounds.
    change [ToDecoder RInit; InitPromiseSettled (Resolve t)]
      with ([ToDecoder RInit] ++ [InitPromiseSettled (Resolve t)] ++ [] ++ []).
    eapply bind_run; [exact E1|].
    eapply bind_run; [reflexivity|].
    eapply bind_run; [apply Hlater | reflexivity].
  - eexists _, _. split; [reflexivity|]. split; [exact Hi|].
    apply InitDecoder_first; [exact Hi | reflexivity | reflexivity].
Qed.

(** * Further properties of the manager and its proxies *)

(** ** What a hand-off leaves alone *)

Lemma SetIdle_leaves (p : option SharedDecoderProxy) (w : list Event)
  (m m' : Manager) (o : list Action) :
  SharedDecoderManager_SetIdle p w m = Ok (tt, m', o) ->
  mInit m' = mInit m /\
  mPDM m' = mPDM m /\
  mActiveCallback m' = mActiveCallback m /\
  mDecoderInitPromise m' = mDecoderInitPromise m /\
  mDecoderInitPromiseRequest m' = mDecoderInitPromiseRequest m /\
  (mDecoder m' = None <-> mDecoder m = None).
Proof.
  intros E. exec E; unframe; repeat split; try congruence; tauto.
Qed.

(** Select returns whenever the hand-off it may need can complete; the
    proxy is then the active one, and the decoder has been sent a drain and
    a flush exactly when another proxy had to be released. *)
Lemma Select_returns (B : SharedDecoderProxy) (w : list Event) (m : Manager) :
  callback_of_active m ->
  (forall a, mActiveProxy m = Some a -> same_proxy a B = false ->
             can_release w m = true) ->
  exists (m1 : Manager) (o : list Action),
    SharedDecoderManager_Select B w m = Ok (tt, m1, o) /\
    is_active (mActiveProxy m1) B = true /\
    requests o =
      match mActiveProxy m with
      | Some a =>
          if same_proxy a B then []
          else [ToDecoder RDrain; ToDecoder RFlush]
      | None => []
      end /\
    (is_active (mActiveProxy m) B = true -> m1 = m) /\
    (is_active (mActiveProxy m) B = false ->
     mActiveProxy m1 = Some B /\ mActiveCallback m1 = Some (mCallback B)) /\
    mInit m1 = mInit m /\
    mDecoderInitPromiseRequest m1 = mDecoderInitPromiseRequest m /\
    (mDecoder m1 = None <-> mDecoder m = None).
Proof.
  intros Hinv Hcan.
  destruct (is_active (mActiveProxy m) B) eqn:Hact.
  - exists m, []. split.
    { unfold SharedDecoderManager_Select, bind, get. rewrite Hact.
      reflexivity. }
    split; [exact Hact|]. split.
    { destruct (mActiveProxy m) as [a|]; [|reflexivity].
      simpl in Hact. rewrite Hact. reflexivity. }
    split; [reflexivity|]. split; [intros X; discriminate X|].
    repeat split; auto.
  - assert (Hidle : exists idle o,
               SharedDecoderManager_SetIdle (mActiveProxy m) w m
                 = Ok (tt, idle, o) /\
               requests o =
                 match mActiveProxy m with
                 | Some a =>
                     if same_proxy a B then []
                     else [ToDecoder RDrain; ToDecoder RFlush]
                 | None => []
                 end).
    { destruct (mActiveProxy m) as [a|] eqn:Ha.
      - simpl in Hact. rewrite Hact.
        destruct (@SetIdle_releases a a w m Hinv Ha (same_proxy_refl a)
                    (Hcan a eq_refl Hact)) as (idle & o & E & Hr & _).
        exists idle, o. split; assumption.
      - exists m, []. split; [|reflexivity].
        apply SetIdle_not_active. reflexivity. }
    destruct Hidle as (idle & o & E & Hr).
    destruct (SetIdle_leaves _ _ _ E) as (L1 & L2 & L3 & L4 & L5 & L6).
    eexists _, o. split; [exact (@Select_other B w m idle o Hact E)|].
    split; [simpl; apply same_proxy_refl|].
    split; [exact Hr|]. split; [intros X; discriminate X|].
    split; [intros _; split; reflexivity|].
    simpl. repeat split; try assumption; tauto.
Qed.


Lemma requests_app (o1 o2 : list Action) :
  requests (o1 ++ o2) = requests o1 ++ requests o2.
Proof. unfold requests. apply filter_app. Qed.



(** X3.  Select is idempotent.  When Select(p) returns, p is the active
    proxy and its callback is the router's target, and a second Select(p)
    changes nothing and makes no call, whatever the task queue holds. *)
Theorem Select_twice (p : SharedDecoderProxy) (w : list Event) (m : Manager) :
  callback_of_active m ->
  (forall a, mActiveProxy m = Some a -> same_proxy a p = false ->
             can_release w m = true) ->
  exists (m' : Manager) (o : list Action),
    SharedDecoderManager_Select p w m = Ok (tt, m', o) /\
    is_active (mActiveProxy m') p = true /\
    callback_of_active m' /\
    forall w' : list Event,
      SharedDecoderManager_Select p w' m' = Ok (tt, m', []).
Proof.
  intros Hinv Hcan.
  destruct (@Select_returns p w m Hinv Hcan)
    as (m1 & o1 & Es & Hact1 & _).
  exists m1, o1. split; [exact Es|]. split; [exact Hact1|].
  split.
  - exact (@step_keeps_callback_of_active (OpSelect p w) m tt m1 o1 Hinv Es).
  - intros w'. unfold SharedDecoderManager_Select, bind, get.
    rewrite Hact1. reflexivity.
Qed.

(** X4.  No notification reaches more than one callback, and the router
    never calls the decoder.  Whatever the decoder notifies and whatever
    the manager's fields, the router returns, makes at most one call, and
    that call hands the same notification to the callback recorded in
    mActiveCallback.  It makes none exactly when there is no such callback
    or the notification is a drain-complete taken for a pending internal
    drain.  Only the wait flag can change. *)
Theorem notify_reaches_at_most_one_sink (e : Event) (m : Manager) :
  exists (m' : Manager) (o : list Action),
    notify e m = Ok (tt, m', o) /\
    frame m m' /\
    mDecoder m' = mDecoder m /\
    (o = [] \/ exists c, mActiveCallback m = Some c /\ o = [ToSink c e]) /\
    (o = [] <->
     mActiveCallback m = None \/
     (e = EvDrainComplete /\ mWaitForInternalDrain m = true)).
Proof.
  destruct (mActiveCallback m) as [c|] eqn:Hc.
  - pose proof (notify_target e m Hc) as E.
    destruct (is_DrainComplete e && mWaitForInternalDrain m) eqn:Hb.
    + apply andb_prop in Hb. destruct Hb as [He Hw].
      eexists _, _. split; [exact E|].
      split; [apply frame_wait|]. split; [reflexivity|].
      split; [left; reflexivity|].
      split; [intros _; right; split; [|exact Hw] | reflexivity].
      destruct e; try discriminate He. reflexivity.
    + eexists _, _. split; [exact E|].
      split; [apply frame_refl|]. split; [reflexivity|].
      split; [right; exists c; split; reflexivity|].
      split; [intros X; discriminate X|].
      intros [X | [He Hw]]; [discriminate X|].
      subst e. rewrite Hw in Hb. discriminate Hb.
  - exists m, []. split; [exact (notify_no_target e m Hc)|].
    split; [apply frame_refl|]. split; [reflexivity|].
    split; [left; reflexivity|].
    split; [intros _; left; reflexivity | reflexivity].
Qed.

(** X5.  CreateVideoDecoder asks the factory only when no decoder is held.
    With a decoder held it hands out a proxy for the given callback and
    changes nothing, whatever configuration is passed.  With none held it
    makes one request to the factory: if that delivers, the decoder and the
    factory are recorded and a proxy is handed out; if not, no proxy is
    handed out and the factory reference is cleared.  In no case does it
    change the active proxy, the router's target or mInit. *)
Theorem CreateVideoDecoder_asks_factory_once (aPDM : P) (aConfig : VideoInfo)
  (lb : LayersBackend) (ic : ImageContainer) (cb : MediaDataDecoderCallback)
  (a : nat) (m : Manager) :
  exists (m' : Manager),
    SharedDecoderManager_CreateVideoDecoder aPDM aConfig lb ic cb a m =
      Ok (match mDecoder m, CreateDecoder aPDM aConfig lb ic with
          | None, None => None
          | _, _ => Some {| addr := a; mCallback := cb |}
          end,
          m',
          match mDecoder m with
          | Some _ => []
          | None => [ToFactory aConfig lb ic]
          end) /\
    (mDecoder m <> None -> m' = m) /\
    (mDecoder m = None ->
     mDecoder m' = CreateDecoder aPDM aConfig lb ic /\
     mPDM m' = match CreateDecoder aPDM aConfig lb ic with
               | Some _ => Some aPDM
               | None => None
               end) /\
    mActiveProxy m' = mActiveProxy m /\
    mActiveCallback m' = mActiveCallback m /\
    mInit m' = mInit m.
Proof.
  unfold SharedDecoderManager_CreateVideoDecoder, bind, get, modify, emit, ret.
  destruct (mDecoder m) as [d|] eqn:Hd; simpl.
  - exists m. split; [reflexivity|]. split; [reflexivity|].
    split; [intros X; discriminate X|]. auto.
  - destruct (CreateDecoder aPDM aConfig lb ic) as [d'|] eqn:Hc; simpl.
    + eexists. split; [reflexivity|].
      split; [intros X; exfalso; apply X; reflexivity|].
      split; [intros _; split; reflexivity|]. auto.
    + eexists. split; [reflexivity|].
      split; [intros X; exfalso; apply X; reflexivity|].
      split; [intros _; split; reflexivity|]. auto.
Qed.

(** ** Shutdown of the manager *)

Lemma Shutdown_when_down (w : list Event) (m : Manager) :
  mDecoder m = None ->
  mPDM m = None ->
  mTaskQueue m = false ->
  mDecoderInitPromiseRequest m = None ->
  SharedDecoderManager_Shutdown w m = Ok (tt, m, []).
Proof.
  intros Hd Hp Hq Hr.
  unfold SharedDecoderManager_Shutdown, bind, get, modify, ret.
  rewrite Hd. simpl. rewrite Hq. simpl.
  destruct m; simpl in *; subst; reflexivity.
Qed.

(** X6.  Shutdown of the manager always returns.  The decoder, if one is
    held, receives exactly one request, a shutdown; afterwards no decoder,
    no factory and no task queue are held and no init is in flight, so the
    shared init promise is never settled by an init begun before.  mInit,
    the active proxy and the router's target are left as they were.  A
    second Shutdown changes nothing and makes no call. *)
Theorem Shutdown_tears_down_once (w : list Event) (m : Manager) :
  exists (m' : Manager) (o : list Action),
    SharedDecoderManager_Shutdown w m = Ok (tt, m', o) /\
    requests o =
      match mDecoder m with
      | Some _ => [ToDecoder RShutdown]
      | None => []
      end /\
    mDecoder m' = None /\
    mPDM m' = None /\
    mTaskQueue m' = false /\
    mDecoderInitPromiseRequest m' = None /\
    mInit m' = mInit m /\
    mActiveProxy m' = mActiveProxy m /\
    mActiveCallback m' = mActiveCallback m /\
    init_promise_settles m' = Ok (tt, m', []) /\
    forall w' : list Event,
      SharedDecoderManager_Shutdown w' m' = Ok (tt, m', []).
Proof.
  assert (Hs : forall es, forallb is_ToSink es = true -> requests es = []).
  { intros es. unfold requests. induction es as [|x es IH]; simpl;
      [reflexivity|].
    destruct x; simpl; try discriminate; exact IH. }
  assert (Hn : forall (es : list Event) (m0 : Manager),
             exists m1 o1, notify_all es m0 = Ok (tt, m1, o1) /\
                           frame m0 m1 /\ requests o1 = []).
  { intros es m0. destruct (mActiveCallback m0) as [c|] eqn:Hc;
      [destruct (mWaitForInternalDrain m0) eqn:Hw|].
    - pose proof (notify_all_armed es m0 Hc Hw) as E.
      eexists _, _. split; [exact E|].
      split; [exact (notify_all_frame _ _ E) | apply requests_of_deliveries].
    - pose proof (notify_all_idle es m0 Hc Hw) as E.
      eexists _, _. split; [exact E|].
      split; [exact (notify_all_frame _ _ E) | apply requests_of_deliveries].
    - pose proof (notify_all_no_target es m0 Hc) as E.
      eexists _, _. split; [exact E|].
      split; [exact (notify_all_frame _ _ E) | reflexivity]. }
  assert (H1 : exists m1 o1,
             (match mDecoder m with
              | Some _ =>
                  bind (call_decoder RShutdown Shutdown_)
                    (fun _ => modify (set_mDecoder None))
              | None => ret tt
              end) m = Ok (tt, m1, o1) /\
             requests o1 =
               match mDecoder m with
               | Some _ => [ToDecoder RShutdown]
               | None => []
               end /\
             mDecoder m1 = None /\ mInit m1 = mInit m /\
             mTaskQueue m1 = mTaskQueue m /\
             mActiveProxy m1 = mActiveProxy m /\
             mActiveCallback m1 = mActiveCallback m).
  { destruct (mDecoder m) as [d|] eqn:Hd.
    - destruct (@call_decoder_returns RShutdown Shutdown_ d m Hd)
        as (m1 & o1 & E & Hf & _ & Hsink).
      eexists _, _. split.
      + eapply bind_run; [exact E | reflexivity].
      + unfold frame in Hf. simpl.
        split.
        { rewrite app_nil_r. unfold requests. simpl.
          fold (requests o1). rewrite (Hs o1 Hsink). reflexivity. }
        repeat split; tauto.
    - exists m, []. repeat split; auto. }
  destruct H1 as (m1 & o1 & E1 & Hr1 & Hd1 & Hi1 & Hq1 & Ha1 & Hc1).
  assert (H2 : exists m2 o2,
             (if mTaskQueue (set_mPDM None m1)
              then bind (emit TaskQueueShutdown)
                     (fun _ => bind (notify_all w)
                        (fun _ => modify (set_mTaskQueue false)))
              else ret tt) (set_mPDM None m1) = Ok (tt, m2, o2) /\
             requests o2 = [] /\
             mDecoder m2 = None /\ mPDM m2 = None /\ mTaskQueue m2 = false /\
             mInit m2 = mInit m /\
             mActiveProxy m2 = mActiveProxy m /\
             mActiveCallback m2 = mActiveCallback m).
  { destruct (mTaskQueue (set_mPDM None m1)) eqn:Hq.
    - destruct (Hn w (set_mPDM None m1)) as (m2 & o2 & En & Hf & Hr2).
      eexists _, _. split.
      + eapply bind_run; [reflexivity|].
        eapply bind_run; [exact En | reflexivity].
      + unfold frame in Hf. simpl in *.
        split.
        { rewrite app_nil_r. exact Hr2. }
        repeat split; try tauto; intuition congruence.
    - eexists _, _. split; [reflexivity|]. simpl in *.
      repeat split; auto. }
  destruct H2 as (m2 & o2 & E2 & Hr2 & Hd2 & Hp2 & Hq2 & Hi2 & Ha2 & Hc2).
  eexists _, _. split.
  { unfold SharedDecoderManager_Shutdown.
    eapply bind_run; [reflexivity|].
    eapply bind_run; [exact E1|].
    eapply bind_run; [reflexivity|].
    eapply bind_run; [reflexivity|].
    eapply bind_run; [exact E2 | reflexivity]. }
  split.
  { simpl. rewrite !requests_app, Hr1, Hr2. simpl.
    rewrite app_nil_r. reflexivity. }
  simpl. repeat split; try assumption.
  intros w'. apply Shutdown_when_down; simpl; auto.
Qed.

(** X7.  Shutdown of the manager does not release the active proxy.  When
    it is called while a proxy is active, every later Shutdown, Drain,
    Flush, Input or IsHardwareAccelerated on that proxy, its destructor
    included, dereferences the null mDecoder; Init still returns a promise
    already resolved. *)
Theorem active_proxy_after_manager_Shutdown (a : SharedDecoderProxy)
  (w : list Event) (m m' : Manager) (o : list Action) :
  mActiveProxy m = Some a ->
  SharedDecoderManager_Shutdown w m = Ok (tt, m', o) ->
  mActiveProxy m' = Some a /\
  (forall w', SharedDecoderProxy_Shutdown a w' m' = Fault) /\
  (forall w', SharedDecoderProxy_destroy a w' m' = Fault) /\
  SharedDecoderProxy_Drain a m' = Fault /\
  SharedDecoderProxy_Flush a m' = Fault /\
  (forall s w', SharedDecoderProxy_Input a s w' m' = Fault) /\
  SharedDecoderProxy_IsHardwareAccelerated a m' = Fault /\
  (forall w', SharedDecoderProxy_Init a w' m' =
              Ok (CreateAndResolve kVideoTrack, m', [])).
Proof.
  intros Ha E.
  destruct (Shutdown_returns w m) as (m1 & o1 & E1 & Hd & _).
  rewrite E in E1. inversion E1; subst m1 o1. clear E1.
  assert (Ha' : mActiveProxy m' = Some a).
  { pose proof E as E'. exec E'; unframe; congruence. }
  assert (Hact : is_active (mActiveProxy m') a = true).
  { rewrite Ha'. apply same_proxy_refl. }
  assert (Hidle : forall w',
             SharedDecoderManager_SetIdle (Some a) w' m' = Fault).
  { intros w'.
    apply (@SetIdle_no_decoder a a w' m' Ha' (same_proxy_refl a) Hd). }
  split; [exact Ha'|].
  split.
  { intros w'. unfold SharedDecoderProxy_Shutdown, bind. rewrite Hidle.
    reflexivity. }
  split.
  { intros w'. unfold SharedDecoderProxy_destroy, SharedDecoderProxy_Shutdown,
      bind. rewrite Hidle. reflexivity. }
  split.
  { rewrite (Drain_of_active m' Ha'). apply call_decoder_null. exact Hd. }
  split.
  { rewrite (Flush_of_active m' Ha'). apply call_decoder_null. exact Hd. }
  split.
  { intros s w'. unfold SharedDecoderProxy_Input, bind at 1, get.
    rewrite Hact. unfold bind, ret.
    rewrite call_decoder_null by exact Hd. reflexivity. }
  split.
  { unfold SharedDecoderProxy_IsHardwareAccelerated, bind, get.
    rewrite Hd. reflexivity. }
  intros w'. unfold SharedDecoderProxy_Init, bind at 1, get.
  rewrite Hact. unfold bind at 1, ret.
  unfold SharedDecoderManager_InitDecoder, bind, get. rewrite Hd.
  destruct (mInit m'); reflexivity.
Qed.

(** X8.  A hand-off whose drain the decoder accepts and never answers
    blocks for good: SetIdle on the active proxy, its Shutdown and its
    destructor, and Select, Init and Input on any other proxy never
    return. *)
Theorem hand_off_blocks_without_DrainComplete (A B : SharedDecoderProxy)
  (d : D) (w : list Event) (m : Manager) :
  callback_of_active m ->
  mActiveProxy m = Some A ->
  same_proxy A B = false ->
  mDecoder m = Some d ->
  rv (Drain_ d) = NS_OK ->
  existsb is_DrainComplete (now (Drain_ d)) || existsb is_DrainComplete w
    = false ->
  SharedDecoderManager_SetIdle (Some A) w m = Hang /\
  SharedDecoderProxy_Shutdown A w m = Hang /\
  SharedDecoderProxy_destroy A w m = Hang /\
  SharedDecoderManager_Select B w m = Hang /\
  SharedDecoderProxy_Init B w m = Hang /\
  (forall s, SharedDecoderProxy_Input B s w m = Hang).
Proof.
  intros Hinv Ha Hne Hd Hrv Hans.
  pose proof (@SetIdle_unanswered A A (mCallback A) d w m Ha
                (same_proxy_refl A) (Hinv A Ha) Hd Hrv Hans) as Hidle.
  pose proof (@Select_unanswered_hangs A B d w m Hinv Ha Hne Hd Hrv Hans)
    as Hsel.
  assert (Hn : is_active (mActiveProxy m) B = false)
    by (rewrite Ha; exact Hne).
  split; [exact Hidle|].
  split.
  { unfold SharedDecoderProxy_Shutdown, bind. rewrite Hidle. reflexivity. }
  split.
  { unfold SharedDecoderProxy_destroy, SharedDecoderProxy_Shutdown, bind.
    rewrite Hidle. reflexivity. }
  split; [exact Hsel|].
  split.
  { unfold SharedDecoderProxy_Init, bind at 1, get. rewrite Hn.
    unfold bind. rewrite Hsel. reflexivity. }
  intros s. unfold SharedDecoderProxy_Input, bind at 1, get. rewrite Hn.
  unfold bind. rewrite Hsel. reflexivity.
Qed.

(** X9.  After a Recreate that returned true, with no init in flight, the
    next InitDecoder sends the new decoder an init request and hands back
    the shared pending promise, even when the decoder replaced had been
    initialized. *)
Theorem InitDecoder_after_Recreate_inits_again (aConfig : VideoInfo)
  (m m' : Manager) (o : list Action) :
  mDecoderInitPromiseRequest m = None ->
  SharedDecoderManager_Recreate aConfig m = Ok (true, m', o) ->
  exists (p : P) (d' : D),
    mPDM m = Some p /\
    CreateDecoder p aConfig (mLayersBackend m) (mImageContainer m) = Some d' /\
    mDecoder m' = Some d' /\
    SharedDecoderManager_InitDecoder m' =
      Ok (FromHolder,
          set_mDecoderInitPromiseRequest (Some (fst (Init_ d')))
            (set_mDecoder (Some (snd (Init_ d')))
               (set_mDecoderInitPromise true m')),
          [ToDecoder RInit]).
Proof.
  intros Hr E.
  pose proof E as E'. exec E'; unframe; try discriminate.
  exists p, d.
  assert (Hp : mPDM m = Some p) by congruence.
  assert (Hc : CreateDecoder p aConfig (mLayersBackend m) (mImageContainer m)
               = Some d) by congruence.
  split; [exact Hp|]. split; [exact Hc|]. split; [assumption|].
  apply InitDecoder_first; simpl; congruence.
Qed.

(** X10.  On every manager that some sequence of entry points leads to from
    a new one: when a proxy is active the router's target is that proxy's
    own callback, so a target exists; and when a decoder is held the
    factory that made it is known. *)
Theorem reachable_manager_is_consistent (m : Manager) :
  reachable m ->
  (forall p, mActiveProxy m = Some p ->
             mActiveCallback m = Some (mCallback p)) /\
  (mActiveProxy m <> None -> mActiveCallback m <> None) /\
  (mDecoder m <> None -> mPDM m <> None).
Proof.
  intros Hr.
  pose proof (reachable_callback_of_active Hr) as H1.
  split; [exact H1|]. split.
  - destruct (mActiveProxy m) as [p|] eqn:Hp.
    + intros _. rewrite (H1 p Hp). discriminate.
    + intros X. exfalso. apply X. reflexivity.
  - exact (reachable_factory_known Hr).
Qed.


End Properties.

(** * The statements on the scripted decoder *)

Lemma holding_callback_of_active (d : Scripted) (d' : option Scripted)
  (a : option SharedDecoderProxy) (init : bool) :
  callback_of_active (holding d d' a init).
Proof. intros p H. simpl in H. subst a. reflexivity. Qed.

Lemma holding_factory_known (d : Scripted) (d' : option Scripted)
  (a : option SharedDecoderProxy) (init : bool) :
  factory_known (holding d d' a init).
Proof. intros _ H. discriminate H. Qed.

Lemma released_reachable : reachable released.
Proof.
  exists use_and_release. eexists. vm_compute. reflexivity.
Qed.


(** C2 as stated fails: after the first proxy was shut down no proxy is
    active, and a frame the decoder puts out is still delivered. *)
Lemma dropped_when_no_proxy_active_fails :
  ~ (forall (m : @SharedDecoderManager Scripted Stock) (e : Event),
       reachable m ->
       is_DrainComplete e = false ->
       mActiveProxy m = None ->
       notify e m = Ok (tt, m, [])).
Proof.
  intros H.
  specialize (H released (EvOutput 3) released_reachable eq_refl eq_refl).
  vm_compute in H. discriminate H.
Qed.

Lemma router_forwards_to_last_selected_witness :
  notify (EvOutput 3) released = Ok (tt, released, [ToSink 10 (EvOutput 3)]).
Proof.
  exact (proj1 (@router_forwards_to_last_selected
                  Scripted Stock Scripted_decoder Stock_pdm
                  released (EvOutput 3)
                  (reachable_callback_of_active released_reachable)
                  eq_refl)).
Defined.

(** C3 as stated fails: the decoder reports an audio track, and the next
    call hands back a promise resolved with the video track. *)
Lemma InitDecoder_known_result_fails :
  ~ (forall (d : Scripted) (m : @SharedDecoderManager Scripted Stock)
            (t : TrackType),
       mInit m = false ->
       mDecoder m = Some d ->
       mDecoderInitPromiseRequest m = None ->
       fst (Init_ d) = Resolve t ->
       exists (m1 m2 : SharedDecoderManager) (o1 o2 : list Action),
         SharedDecoderManager_InitDecoder m = Ok (FromHolder, m1, o1) /\
         init_promise_settles m1 = Ok (tt, m2, o2) /\
         SharedDecoderManager_InitDecoder m2 = Ok (CreateAndResolve t, m2, [])).
Proof.
  intros H.
  destruct (H audio_init (holding audio_init None None false) kAudioTrack
              eq_refl eq_refl eq_refl eq_refl)
    as (m1 & m2 & o1 & o2 & E1 & E2 & E3).
  vm_compute in E1. injection E1 as <- <-.
  vm_compute in E2. injection E2 as <- <-.
  vm_compute in E3. discriminate E3.
Qed.

Lemma InitDecoder_inits_once_witness :
  exists m2 : SharedDecoderManager,
    init_rounds 3 (holding audio_init None None false)
      = Ok ([FromHolder; CreateAndResolve kVideoTrack;
             CreateAndResolve kVideoTrack], m2,
            [ToDecoder RInit; InitPromiseSettled (Resolve kAudioTrack)]).
Proof.
  destruct (@InitDecoder_inits_once Scripted Stock Scripted_decoder
              audio_init
              (holding audio_init None None false) eq_refl eq_refl eq_refl)
    as (m1 & _ & _ & m2 & _ & _ & _ & Hn).
  exists m2. exact (Hn 2).
Defined.

Lemma Recreate_flushes_shuts_down_then_creates_witness :
  exists (b : bool) (m' : SharedDecoderManager) (o1 o2 : list Action),
    SharedDecoderManager_Recreate 7
      (holding audio_init (Some queued_drain) (Some proxyA) true)
      = Ok (b, m',
            ToDecoder RFlush :: o1 ++ ToDecoder RShutdown :: o2
              ++ [ToFactory 7 0 0]) /\
    mActiveProxy m' = Some proxyA.
Proof.
  destruct (@Recreate_flushes_shuts_down_then_creates
              Scripted Stock Scripted_decoder Stock_pdm 7 audio_init
              (holding audio_init (Some queued_drain) (Some proxyA) true)
              (@holding_factory_known _ _ _ _) eq_refl)
    as (p & b & m' & o1 & o2 & _ & E & _ & _ & Ha & _).
  exists b, m', o1, o2. split; [exact E | exact Ha].
Defined.

Lemma only_Recreate_lowers_mInit_witness :
  exists (m' : SharedDecoderManager) (o : list Action),
    step (OpProxyShutdown proxyA [EvDrainComplete])
      (holding queued_drain None (Some proxyA) true) = Ok (tt, m', o) /\
    mInit m' = true.
Proof.
  eexists _, _.
  refine ((fun E =>
             conj E
               (proj1 (@only_Recreate_lowers_mInit
                         Scripted Stock Scripted_decoder Stock_pdm)
                  (OpProxyShutdown proxyA [EvDrainComplete])
                  (holding queued_drain None (Some proxyA) true) _ _
                  eq_refl eq_refl E)) _).
  vm_compute. reflexivity.
Defined.

Lemma SetIdle_refused_drain_does_not_wait_witness :
  exists (idle : SharedDecoderManager) (o : list Action),
    SharedDecoderManager_SetIdle (Some proxyA) []
      (holding failing_drain None (Some proxyA) true) = Ok (tt, idle, o) /\
    mActiveProxy idle = None.
Proof.
  destruct (@SetIdle_refused_drain_does_not_wait
              Scripted Stock Scripted_decoder proxyA proxyA
              failing_drain []
              (holding failing_drain None (Some proxyA) true)
              (@holding_callback_of_active _ _ _ _)
              eq_refl eq_refl eq_refl eq_refl)
    as (mid & post & idle & E & _ & Hnone & _).
  eexists idle, _. split; [exact E | exact Hnone].
Defined.

Lemma Drain_on_inactive_proxy_witness :
  SharedDecoderProxy_Drain proxyB
    (holding queued_drain None (Some proxyA) true)
    = Ok (NS_OK, holding queued_drain None (Some proxyA) true,
          [ToSink 20 EvDrainComplete]).
Proof.
  exact (@Drain_on_inactive_proxy Scripted Stock Scripted_decoder proxyB
           (holding queued_drain None (Some proxyA) true) eq_refl).
Defined.


Lemma InitDecoder_without_decoder_resolves_witness :
  SharedDecoderManager_InitDecoder
    (SharedDecoderManager_new : @SharedDecoderManager Scripted Stock)
    = Ok (CreateAndResolve kVideoTrack, SharedDecoderManager_new, []).
Proof.
  exact (proj1 (@InitDecoder_without_decoder_resolves
                  Scripted Stock Scripted_decoder Stock_pdm)
           SharedDecoderManager_new eq_refl).
Defined.


(** * Properties of the demuxer *)

Section MP4Properties.

Context {X : Type}.
Context {index : SampleIndex X}.

Local Abbreviation TrackDemuxer := (@MP4TrackDemuxer X).

(** ** The iterator *)

Lemma upcoming_upto_enough (f1 f2 : nat) (x : X) :
  samples_left x <= f1 ->
  samples_left x <= f2 ->
  upcoming_upto f1 x = upcoming_upto f2 x.
Proof.
  revert f2 x. induction f1 as [|f1 IH]; intros f2 x H1 H2.
  - destruct f2 as [|f2]; [reflexivity|]. simpl.
    destruct (Iterator_GetNext x) as [[s|] x'] eqn:E; [|reflexivity].
    pose proof (GetNext_advances x E). lia.
  - simpl. destruct (Iterator_GetNext x) as [[s|] x'] eqn:E.
    + pose proof (GetNext_advances x E) as Hlt.
      destruct f2 as [|f2]; [lia|]. simpl. rewrite E.
      f_equal. apply IH; lia.
    + destruct f2 as [|f2]; simpl; [|rewrite E]; [|reflexivity].
      destruct (samples_left x) eqn:Hs; [|lia].
      reflexivity.
Qed.

(** What is to come is the next sample, if there is one, followed by what
    is to come after it. *)
Lemma upcoming_step (x : X) :
  upcoming x =
    match Iterator_GetNext x with
    | (Some s, x') => s :: upcoming x'
    | (None, _) => []
    end.
Proof.
  unfold upcoming.
  destruct (Iterator_GetNext x) as [[s|] x'] eqn:E.
  - pose proof (GetNext_advances x E) as Hlt.
    destruct (samples_left x) as [|k] eqn:Hk; [lia|].
    simpl. rewrite E. f_equal. apply upcoming_upto_enough; lia.
  - rewrite (@upcoming_upto_enough (samples_left x) (S (samples_left x)) x)
      by lia.
    simpl. rewrite E. reflexivity.
Qed.

Lemma upcoming_length (x : X) : length (upcoming x) <= samples_left x.
Proof.
  remember (samples_left x) as n eqn:Hn.
  assert (Hle : samples_left x <= n) by lia. clear Hn.
  revert x Hle. induction n as [|n IH]; intros x Hle; rewrite upcoming_step.
  - destruct (Iterator_GetNext x) as [[s|] x'] eqn:E; [|simpl; lia].
    pose proof (GetNext_advances x E). lia.
  - destruct (Iterator_GetNext x) as [[s|] x'] eqn:E; [|simpl; lia].
    pose proof (GetNext_advances x E). simpl.
    specialize (IH x'). lia.
Qed.

(** ** The loop of GetSamples *)

(** With a count of [k] still to take, the loop takes the first [k] of what
    is to come. *)
Lemma GetSamples_loop_takes (fuel k : nat) (x : X) (acc : list RawSample) :
  samples_left x < fuel ->
  (Z.of_nat k < 2147483648)%Z ->
  fst (GetSamples_loop fuel (Z.of_nat k) x acc) = acc ++ firstn k (upcoming x).
Proof.
  revert k x acc. induction fuel as [|fuel IH]; intros k x acc Hf Hk; [lia|].
  simpl. destruct k as [|k].
  - simpl. rewrite app_nil_r. reflexivity.
  - replace (Z.of_nat (S k) =? 0)%Z with false
      by (symmetry; apply Z.eqb_neq; lia).
    rewrite (upcoming_step x).
    destruct (Iterator_GetNext x) as [[s|] x'] eqn:E.
    + pose proof (GetNext_advances x E) as Hlt.
      replace (dec32 (Z.of_nat (S k))) with (Z.of_nat k).
      2:{ unfold dec32.
          replace (Z.of_nat (S k) =? -2147483648)%Z with false
            by (symmetry; apply Z.eqb_neq; lia).
          lia. }
      rewrite IH by lia. simpl. rewrite <- app_assoc. reflexivity.
    + simpl. rewrite app_nil_r. reflexivity.
Qed.

(** With a negative count that the samples to come cannot wrap around to
    zero, the loop takes all that is to come. *)
Lemma GetSamples_loop_takes_all (fuel : nat) (n : Z) (x : X)
  (acc : list RawSample) :
  samples_left x < fuel ->
  (n < 0)%Z ->
  (-2147483648 <= n - Z.of_nat (samples_left x))%Z ->
  fst (GetSamples_loop fuel n x acc) = acc ++ upcoming x.
Proof.
  revert n x acc. induction fuel as [|fuel IH]; intros n x acc Hf Hn Hb; [lia|].
  simpl.
  replace (n =? 0)%Z with false by (symmetry; apply Z.eqb_neq; lia).
  rewrite (upcoming_step x).
  destruct (Iterator_GetNext x) as [[s|] x'] eqn:E.
  - pose proof (GetNext_advances x E) as Hlt.
    assert (Hd : dec32 n = (n - 1)%Z).
    { unfold dec32.
      replace (n =? -2147483648)%Z with false
        by (symmetry; apply Z.eqb_neq; lia).
      reflexivity. }
    rewrite Hd, IH by lia. rewrite <- app_assoc. reflexivity.
  - simpl. rewrite app_nil_r. reflexivity.
Qed.

(** The loop hands back what it was given, and more. *)
Lemma GetSamples_loop_extends (fuel : nat) (n : Z) (x : X)
  (acc : list RawSample) :
  exists more, fst (GetSamples_loop fuel n x acc) = acc ++ more.
Proof.
  revert n x acc. induction fuel as [|fuel IH]; intros n x acc; simpl.
  - exists []. rewrite app_nil_r. reflexivity.
  - destruct (n =? 0)%Z; [exists []; rewrite app_nil_r; reflexivity|].
    destruct (Iterator_GetNext x) as [[s|] x'] eqn:E.
    + destruct (IH (dec32 n) x' (acc ++ [s])) as [more Hm].
      exists (s :: more). rewrite Hm, <- app_assoc. reflexivity.
    + exists []. rewrite app_nil_r. reflexivity.
Qed.

(** ** What the small methods leave alone *)

Lemma Ensure_leaves (cached : nsresult * list MediaByteRange)
  (t : TrackDemuxer) :
  mInfo (MP4TrackDemuxer_EnsureUpToDateIndex cached t) = mInfo t /\
  mQueuedSample (MP4TrackDemuxer_EnsureUpToDateIndex cached t)
    = mQueuedSample t /\
  mNextKeyframeTime (MP4TrackDemuxer_EnsureUpToDateIndex cached t)
    = mNextKeyframeTime t.
Proof.
  unfold MP4TrackDemuxer_EnsureUpToDateIndex.
  destruct (negb (mNeedReIndex t)); [auto|].
  destruct (NS_FAILED (fst cached)); auto.
Qed.

Lemma SetNextKeyFrameTime_sets (t : TrackDemuxer) :
  mInfo (MP4TrackDemuxer_SetNextKeyFrameTime t) = mInfo t /\
  mIndex (MP4TrackDemuxer_SetNextKeyFrameTime t) = mIndex t /\
  mQueuedSample (MP4TrackDemuxer_SetNextKeyFrameTime t) = mQueuedSample t /\
  mNeedReIndex (MP4TrackDemuxer_SetNextKeyFrameTime t) = mNeedReIndex t /\
  MP4TrackDemuxer_GetNextRandomAccessPoint
    (MP4TrackDemuxer_SetNextKeyFrameTime t)
    = (NS_OK, random_access_point (Iterator_GetNextKeyframeTime (mIndex t))).
Proof.
  unfold MP4TrackDemuxer_SetNextKeyFrameTime,
    MP4TrackDemuxer_GetNextRandomAccessPoint, random_access_point.
  destruct (Iterator_GetNextKeyframeTime (mIndex t) =? -1)%Z; simpl; auto.
Qed.

(** UpdateSamples on a non-empty array is within bounds; it rewrites every
    sample and touches nothing of the demuxer but the next keyframe time. *)
Lemma UpdateSamples_in_bounds (l : list RawSample) (t : TrackDemuxer) :
  l <> [] ->
  exists t',
    MP4TrackDemuxer_UpdateSamples l t
      = Some (map (UpdateSamples_one (mInfo t)) l, t') /\
    mInfo t' = mInfo t /\
    mIndex t' = mIndex t /\
    mQueuedSample t' = mQueuedSample t /\
    mNeedReIndex t' = mNeedReIndex t.
Proof.
  intros Hne. unfold MP4TrackDemuxer_UpdateSamples.
  destruct (SetNextKeyFrameTime_sets t) as (S1 & S2 & S3 & S4 & _).
  destruct (mNextKeyframeTime t) as [next|].
  - assert (Hl : exists r, last (map Some (map (UpdateSamples_one (mInfo t)) l))
                             None = Some r).
    { clear - Hne. induction l as [|a l IH]; [congruence|].
      destruct l as [|b l];
        [exists (UpdateSamples_one (mInfo t) a); reflexivity|].
      destruct IH as [r Hr]; [discriminate|]. exists r. exact Hr. }
    destruct Hl as [r Hr]. rewrite Hr.
    destruct (next <=? mTime r)%Z; eexists; split; try reflexivity; auto.
  - eexists; split; [reflexivity | auto].
Qed.

(** ** GetSamples *)

Lemma firstn_nonempty {A : Type} (k : nat) (l : list A) :
  0 < k -> l <> [] -> firstn k l <> [].
Proof.
  intros Hk Hl. destruct k; [lia|]. destruct l; [congruence|].
  simpl. discriminate.
Qed.

(** GetSamples in closed form, for any count for which the loop is known
    to take [take] of what is to come. *)
Lemma GetSamples_closed (aNumSamples : Z)
  (cached : nsresult * list MediaByteRange) (t : TrackDemuxer)
  (take : list RawSample -> list RawSample) :
  aNumSamples <> 0%Z ->
  (forall q more, take (q :: more) <> []) ->
  take [] = [] ->
  (forall (n : Z) (acc : list RawSample),
     n = match mQueuedSample (MP4TrackDemuxer_EnsureUpToDateIndex cached t)
         with Some _ => dec32 aNumSamples | None => aNumSamples end ->
     acc = match mQueuedSample (MP4TrackDemuxer_EnsureUpToDateIndex cached t)
           with Some q => [q] | None => [] end ->
     fst (GetSamples_loop
            (S (samples_left
                  (mIndex (MP4TrackDemuxer_EnsureUpToDateIndex cached t))))
            n (mIndex (MP4TrackDemuxer_EnsureUpToDateIndex cached t)) acc)
       = take (available (MP4TrackDemuxer_EnsureUpToDateIndex cached t))) ->
  exists t',
    MP4TrackDemuxer_GetSamples aNumSamples cached t =
      Some (match available (MP4TrackDemuxer_EnsureUpToDateIndex cached t)
            with
            | [] => Rejected END_OF_STREAM
            | _ :: _ =>
                Resolved
                  (map (UpdateSamples_one (mInfo t))
                     (take (available
                              (MP4TrackDemuxer_EnsureUpToDateIndex cached t))))
            end, t') /\
    mQueuedSample t' = None /\
    mInfo t' = mInfo t /\
    mNeedReIndex t' =
      mNeedReIndex (MP4TrackDemuxer_EnsureUpToDateIndex cached t).
Proof.
  intros Hn Htake Hnil Hloop.
  destruct (Ensure_leaves cached t) as (Ei & _ & _).
  unfold MP4TrackDemuxer_GetSamples.
  replace (aNumSamples =? 0)%Z with false
    by (symmetry; apply Z.eqb_neq; exact Hn).
  remember (MP4TrackDemuxer_EnsureUpToDateIndex cached t) as t1 eqn:Ht1.
  unfold available in *.
  destruct (mQueuedSample t1) as [q|] eqn:Hq.
  - specialize (Hloop (dec32 aNumSamples) [q] eq_refl eq_refl).
    simpl mIndex.
    destruct (GetSamples_loop (S (samples_left (mIndex t1)))
                (dec32 aNumSamples) (mIndex t1) [q]) as [samples' x'] eqn:El.
    simpl in Hloop. subst samples'.
    destruct (take (q :: upcoming (mIndex t1))) as [|s0 rest] eqn:Et;
      [exfalso; exact (Htake _ _ Et)|].
    destruct (@UpdateSamples_in_bounds (s0 :: rest)
                (set_mIndex x' (set_mQueuedSample None t1)))
      as (t4 & Eu & U1 & U2 & U3 & U4); [discriminate|].
    rewrite Eu. exists t4. simpl in *.
    rewrite Ei. split; [reflexivity|]. repeat split; congruence.
  - specialize (Hloop aNumSamples [] eq_refl eq_refl).
    destruct (GetSamples_loop (S (samples_left (mIndex t1)))
                aNumSamples (mIndex t1) []) as [samples' x'] eqn:El.
    simpl in Hloop. subst samples'.
    destruct (upcoming (mIndex t1)) as [|u0 urest] eqn:Eup.
    + rewrite Hnil. eexists. split; [reflexivity|]. simpl.
      repeat split; congruence.
    + destruct (take (u0 :: urest)) as [|s0 rest] eqn:Et;
        [exfalso; exact (Htake _ _ Et)|].
      destruct (@UpdateSamples_in_bounds (s0 :: rest) (set_mIndex x' t1))
        as (t4 & Eu & U1 & U2 & U3 & U4); [discriminate|].
      rewrite Eu. exists t4. simpl in *.
      rewrite Ei. split; [reflexivity|]. repeat split; congruence.
Qed.

(** X12.  GetSamples(n) for a count n from 1 to INT32_MAX, after the index
    was brought up to date.  When the demuxer has nothing queued and its
    iterator nothing to come, the promise is rejected with END_OF_STREAM.
    Otherwise it is resolved with the first n of: the queued sample, then
    the samples the iterator hands out, each rewritten as UpdateSamples
    does; there are fewer than n only when no more are to come.  Afterwards
    nothing is queued. *)
Theorem GetSamples_hands_back_the_first_n (aNumSamples : Z)
  (cached : nsresult * list MediaByteRange) (t : TrackDemuxer) :
  (0 < aNumSamples < 2147483648)%Z ->
  exists t',
    MP4TrackDemuxer_GetSamples aNumSamples cached t =
      Some (match available (MP4TrackDemuxer_EnsureUpToDateIndex cached t)
            with
            | [] => Rejected END_OF_STREAM
            | _ :: _ =>
                Resolved
                  (map (UpdateSamples_one (mInfo t))
                     (firstn (Z.to_nat aNumSamples)
                        (available
                           (MP4TrackDemuxer_EnsureUpToDateIndex cached t))))
            end, t') /\
    mQueuedSample t' = None /\
    mInfo t' = mInfo t /\
    mNeedReIndex t' =
      mNeedReIndex (MP4TrackDemuxer_EnsureUpToDateIndex cached t).
Proof.
  intros Hn.
  apply (@GetSamples_closed aNumSamples cached t
           (firstn (Z.to_nat aNumSamples))).
  - lia.
  - intros q more. apply firstn_nonempty; [lia | discriminate].
  - apply firstn_nil.
  - intros n acc -> ->. unfold available.
    destruct (mQueuedSample (MP4TrackDemuxer_EnsureUpToDateIndex cached t))
      as [q|].
    + assert (Hd : dec32 aNumSamples = Z.of_nat (Z.to_nat aNumSamples - 1)).
      { unfold dec32.
        replace (aNumSamples =? -2147483648)%Z with false
          by (symmetry; apply Z.eqb_neq; lia).
        lia. }
      rewrite Hd, GetSamples_loop_takes by lia.
      destruct (Z.to_nat aNumSamples) as [|k] eqn:Hk; [lia|].
      simpl. rewrite Nat.sub_0_r. reflexivity.
    + replace aNumSamples with (Z.of_nat (Z.to_nat aNumSamples)) at 1 by lia.
      rewrite GetSamples_loop_takes by lia. reflexivity.
Qed.

(** X13.  The edge counts of GetSamples.  A count of 0 is rejected with
    DEMUXER_ERROR, with samples available or not, and consumes nothing: the
    queued sample and the iterator stay as they are.  A negative count,
    which the samples to come cannot wrap around, hands back everything
    available, or END_OF_STREAM when there is nothing.  For no count at all
    does GetSamples read the last element of an empty array. *)
Theorem GetSamples_edge_counts (cached : nsresult * list MediaByteRange)
  (t : TrackDemuxer) :
  MP4TrackDemuxer_GetSamples 0 cached t =
    Some (Rejected DEMUXER_ERROR, MP4TrackDemuxer_EnsureUpToDateIndex cached t)
  /\
  (forall aNumSamples : Z,
     (aNumSamples < 0)%Z ->
     (-2147483648 <=
        aNumSamples - 1
        - Z.of_nat
            (samples_left
               (mIndex (MP4TrackDemuxer_EnsureUpToDateIndex cached t))))%Z ->
     exists t',
       MP4TrackDemuxer_GetSamples aNumSamples cached t =
         Some (match available (MP4TrackDemuxer_EnsureUpToDateIndex cached t)
               with
               | [] => Rejected END_OF_STREAM
               | _ :: _ =>
                   Resolved
                     (map (UpdateSamples_one (mInfo t))
                        (available
                           (MP4TrackDemuxer_EnsureUpToDateIndex cached t)))
               end, t') /\
       mQueuedSample t' = None) /\
  (forall aNumSamples : Z,
     MP4TrackDemuxer_GetSamples aNumSamples cached t <> None).
Proof.
  split; [reflexivity|]. split.
  - intros n Hn Hb.
    destruct (@GetSamples_closed n cached t (fun l => l)) as (t' & E & Hq & _).
    + lia.
    + intros q more. discriminate.
    + reflexivity.
    + intros n' acc -> ->. unfold available.
      destruct (mQueuedSample (MP4TrackDemuxer_EnsureUpToDateIndex cached t))
        as [q|].
      * assert (Hd : dec32 n = (n - 1)%Z).
        { unfold dec32.
          replace (n =? -2147483648)%Z with false
            by (symmetry; apply Z.eqb_neq; lia).
          reflexivity. }
        rewrite Hd, GetSamples_loop_takes_all by lia. reflexivity.
      * rewrite GetSamples_loop_takes_all by lia. reflexivity.
    + exists t'. split; [exact E | exact Hq].
  - intros n. unfold MP4TrackDemuxer_GetSamples.
    destruct (n =? 0)%Z; [discriminate|].
    destruct (mQueuedSample (MP4TrackDemuxer_EnsureUpToDateIndex cached t));
      match goal with
      | |- context [GetSamples_loop ?f ?k ?x ?a] =>
          destruct (GetSamples_loop f k x a) as [samples' x']
      end;
      (destruct samples' as [|s0 rest]; [discriminate|]);
      match goal with
      | |- context [MP4TrackDemuxer_UpdateSamples ?l ?t2] =>
          destruct (@UpdateSamples_in_bounds l t2) as (t4 & Eu & _);
            [discriminate | rewrite Eu; discriminate]
      end.
Qed.

(** ** Seek *)

(** X14.  Seek(aTime) queues the first sample the iterator hands out after
    being moved to aTime and resolves with that sample's time, or with
    aTime itself when the iterator has none.  A GetSamples(1) that follows
    hands back exactly the queued sample, so the first sample read after a
    Seek has the time the Seek resolved with. *)
Theorem Seek_then_GetSamples (aTime : Microseconds)
  (cached : nsresult * list MediaByteRange) (t : TrackDemuxer) :
  mQueuedSample (snd (MP4TrackDemuxer_Seek aTime t)) =
    fst (Iterator_GetNext (Iterator_Seek aTime (mIndex t))) /\
  match mQueuedSample (snd (MP4TrackDemuxer_Seek aTime t)) with
  | Some q =>
      fst (MP4TrackDemuxer_Seek aTime t) = mTime q /\
      exists t',
        MP4TrackDemuxer_GetSamples 1 cached (snd (MP4TrackDemuxer_Seek aTime t))
          = Some (Resolved [UpdateSamples_one (mInfo t) q], t') /\
        mTime (UpdateSamples_one (mInfo t) q)
          = fst (MP4TrackDemuxer_Seek aTime t) /\
        mQueuedSample t' = None
  | None => fst (MP4TrackDemuxer_Seek aTime t) = aTime
  end.
Proof.
  assert (Hq : mQueuedSample (snd (MP4TrackDemuxer_Seek aTime t)) =
               fst (Iterator_GetNext (Iterator_Seek aTime (mIndex t)))).
  { unfold MP4TrackDemuxer_Seek. simpl.
    destruct (SetNextKeyFrameTime_sets
                (set_mQueuedSample
                   (fst (Iterator_GetNext (Iterator_Seek aTime (mIndex t))))
                   (set_mIndex
                      (snd (Iterator_GetNext (Iterator_Seek aTime (mIndex t))))
                      (set_mQueuedSample None t))))
      as (_ & _ & S3 & _).
    exact S3. }
  assert (Hi : mInfo (snd (MP4TrackDemuxer_Seek aTime t)) = mInfo t).
  { unfold MP4TrackDemuxer_Seek. simpl.
    destruct (SetNextKeyFrameTime_sets
                (set_mQueuedSample
                   (fst (Iterator_GetNext (Iterator_Seek aTime (mIndex t))))
                   (set_mIndex
                      (snd (Iterator_GetNext (Iterator_Seek aTime (mIndex t))))
                      (set_mQueuedSample None t))))
      as (S1 & _).
    exact S1. }
  assert (Ht : fst (MP4TrackDemuxer_Seek aTime t) =
               match fst (Iterator_GetNext (Iterator_Seek aTime (mIndex t)))
               with Some q => mTime q | None => aTime end).
  { reflexivity. }
  split; [exact Hq|].
  rewrite Hq, Ht.
  destruct (fst (Iterator_GetNext (Iterator_Seek aTime (mIndex t))))
    as [q|] eqn:Eq; [|reflexivity].
  split; [reflexivity|].
  destruct (@GetSamples_closed 1%Z cached (snd (MP4TrackDemuxer_Seek aTime t))
              (firstn 1)) as (t' & E & Hnone & _).
  - discriminate.
  - intros q0 more. discriminate.
  - reflexivity.
  - intros n acc -> ->. unfold available.
    destruct (Ensure_leaves cached (snd (MP4TrackDemuxer_Seek aTime t)))
      as (_ & Eqd & _).
    rewrite Eqd, Hq. reflexivity.
  - exists t'. split.
    + rewrite E. unfold available.
      destruct (Ensure_leaves cached (snd (MP4TrackDemuxer_Seek aTime t)))
        as (_ & Eqd & _).
      rewrite Eqd, Hq, Hi. reflexivity.
    + split; [|exact Hnone].
      unfold UpdateSamples_one.
      destruct (valid (mCrypto q)); destruct (GetAsVideoInfo (mInfo t));
        reflexivity.
Qed.

(** ** SkipToNextRandomAccessPoint *)

Lemma inc32_count (c : nat) :
  inc32 (Z.of_nat c mod 4294967296) = (Z.of_nat (S c) mod 4294967296)%Z.
Proof.
  unfold inc32. rewrite Zplus_mod_idemp_l. f_equal. lia.
Qed.

(** The loop stops at the first access point of what is to come and has
    counted the samples up to and with it; with none to come it has
    counted them all. *)
Lemma Skip_loop_finds (fuel : nat) (thr : Microseconds) (x : X) (c : nat) :
  samples_left x < fuel ->
  (forall pre s post,
     upcoming x = pre ++ s :: post ->
     forallb (fun p => negb (is_access_point thr p)) pre = true ->
     is_access_point thr s = true ->
     exists x',
       Skip_loop fuel thr x (Z.of_nat c mod 4294967296) =
         (Some s, (Z.of_nat (c + S (length pre)) mod 4294967296)%Z, x') /\
       upcoming x' = post) /\
  (forallb (fun p => negb (is_access_point thr p)) (upcoming x) = true ->
   exists x',
     Skip_loop fuel thr x (Z.of_nat c mod 4294967296) =
       (None, (Z.of_nat (c + length (upcoming x)) mod 4294967296)%Z, x')).
Proof.
  revert x c. induction fuel as [|fuel IH]; intros x c Hf; [lia|].
  rewrite (upcoming_step x). simpl.
  destruct (Iterator_GetNext x) as [[s0|] x0] eqn:E.
  - pose proof (GetNext_advances x E) as Hlt.
    assert (Hx0 : samples_left x0 < fuel) by lia.
    destruct (IH x0 (S c) Hx0) as [IHf IHn].
    fold (is_access_point thr s0).
    split.
    + intros pre s post Hl Hpre Hs.
      destruct pre as [|p pre].
      * simpl in Hl. injection Hl as Hs0 Hup. subst s0. rewrite Hs.
        exists x0. split; [|exact Hup].
        rewrite inc32_count. do 2 f_equal. simpl. f_equal. lia.
      * simpl in Hl. injection Hl as Hs0 Hl. subst s0. simpl in Hpre.
        apply andb_prop in Hpre. destruct Hpre as [Hp Hpre].
        apply negb_true_iff in Hp. rewrite Hp.
        destruct (IHf pre s post Hl Hpre Hs) as (x' & Ex & Hup).
        exists x'. split; [|exact Hup].
        rewrite inc32_count, Ex. do 2 f_equal. simpl. f_equal. lia.
    + intros Hall. simpl in Hall.
      apply andb_prop in Hall. destruct Hall as [Hp Hall].
      apply negb_true_iff in Hp. rewrite Hp.
      destruct (IHn Hall) as (x' & Ex).
      exists x'. rewrite inc32_count, Ex. do 2 f_equal. simpl. f_equal. lia.
  - split.
    + intros pre s post Hl. destruct pre; discriminate Hl.
    + intros _. exists x0. simpl. rewrite Nat.add_0_r. reflexivity.
Qed.

(** X15.  SkipToNextRandomAccessPoint(threshold) drops what was queued and
    walks the samples to come.  When one of them is a keyframe at or after
    the threshold, the promise is resolved with the number of samples
    parsed up to and with the first such keyframe (modulo 2^32), that
    keyframe is queued, and the iterator stands right after it.  When none
    is, the promise is rejected with END_OF_STREAM and the number of all
    the samples that were to come, and nothing is queued. *)
Theorem Skip_stops_at_first_access_point (aTimeThreshold : Microseconds)
  (t : TrackDemuxer) :
  (forall pre s post,
     upcoming (mIndex t) = pre ++ s :: post ->
     forallb (fun p => negb (is_access_point aTimeThreshold p)) pre = true ->
     is_access_point aTimeThreshold s = true ->
     exists t',
       MP4TrackDemuxer_SkipToNextRandomAccessPoint aTimeThreshold t =
         (Resolved (Z.of_nat (S (length pre)) mod 4294967296)%Z, t') /\
       mQueuedSample t' = Some s /\
       upcoming (mIndex t') = post) /\
  (forallb (fun p => negb (is_access_point aTimeThreshold p))
     (upcoming (mIndex t)) = true ->
   exists t',
     MP4TrackDemuxer_SkipToNextRandomAccessPoint aTimeThreshold t =
       (Rejected (END_OF_STREAM,
                  (Z.of_nat (length (upcoming (mIndex t))) mod 4294967296)%Z),
        t') /\
     mQueuedSample t' = None).
Proof.
  destruct (@Skip_loop_finds (S (samples_left (mIndex t))) aTimeThreshold
              (mIndex t) 0 (Nat.lt_succ_diag_r _)) as [Hf Hn].
  split.
  - intros pre s post Hl Hpre Hs.
    destruct (Hf pre s post Hl Hpre Hs) as (x' & Ex & Hup).
    unfold MP4TrackDemuxer_SkipToNextRandomAccessPoint. simpl mIndex.
    change (Z.of_nat 0 mod 4294967296)%Z with 0%Z in Ex. rewrite Ex.
    eexists. split; [reflexivity|].
    match goal with
    | |- mQueuedSample (MP4TrackDemuxer_SetNextKeyFrameTime ?u) = _ /\ _ =>
        destruct (SetNextKeyFrameTime_sets u) as (_ & S2 & S3 & _)
    end.
    rewrite S2, S3. split; [reflexivity | exact Hup].
  - intros Hall. destruct (Hn Hall) as (x' & Ex).
    unfold MP4TrackDemuxer_SkipToNextRandomAccessPoint. simpl mIndex.
    change (Z.of_nat 0 mod 4294967296)%Z with 0%Z in Ex. rewrite Ex.
    eexists. split; [reflexivity|].
    match goal with
    | |- mQueuedSample (MP4TrackDemuxer_SetNextKeyFrameTime ?u) = _ =>
        destruct (SetNextKeyFrameTime_sets u) as (_ & _ & S3 & _)
    end.
    rewrite S3. reflexivity.
Qed.

(** ** The next random access point *)

(** X16.  GetNextRandomAccessPoint always returns NS_OK.  After a Seek, a
    Reset or a SkipToNextRandomAccessPoint it reports what the iterator
    gives as its next keyframe time at the position the call left it at,
    and INT64_MAX when the iterator gives -1, that is none. *)
Theorem GetNextRandomAccessPoint_after_repositioning (t : TrackDemuxer) :
  fst (MP4TrackDemuxer_GetNextRandomAccessPoint t) = NS_OK /\
  (forall aTime,
     MP4TrackDemuxer_GetNextRandomAccessPoint
       (snd (MP4TrackDemuxer_Seek aTime t)) =
       (NS_OK,
        random_access_point
          (Iterator_GetNextKeyframeTime
             (mIndex (snd (MP4TrackDemuxer_Seek aTime t)))))) /\
  MP4TrackDemuxer_GetNextRandomAccessPoint (MP4TrackDemuxer_Reset t) =
    (NS_OK,
     random_access_point
       (Iterator_GetNextKeyframeTime (mIndex (MP4TrackDemuxer_Reset t)))) /\
  (forall thr,
     MP4TrackDemuxer_GetNextRandomAccessPoint
       (snd (MP4TrackDemuxer_SkipToNextRandomAccessPoint thr t)) =
       (NS_OK,
        random_access_point
          (Iterator_GetNextKeyframeTime
             (mIndex
                (snd (MP4TrackDemuxer_SkipToNextRandomAccessPoint thr t)))))).
Proof.
  assert (Hset : forall u : TrackDemuxer,
             MP4TrackDemuxer_GetNextRandomAccessPoint
               (MP4TrackDemuxer_SetNextKeyFrameTime u) =
               (NS_OK,
                random_access_point
                  (Iterator_GetNextKeyframeTime
                     (mIndex (MP4TrackDemuxer_SetNextKeyFrameTime u))))).
  { intros u. destruct (SetNextKeyFrameTime_sets u) as (_ & S2 & _ & _ & S5).
    rewrite S5, S2. reflexivity. }
  split; [|split; [|split]].
  - unfold MP4TrackDemuxer_GetNextRandomAccessPoint.
    destruct (mNextKeyframeTime t); reflexivity.
  - intros aTime. unfold MP4TrackDemuxer_Seek. simpl snd. apply Hset.
  - unfold MP4TrackDemuxer_Reset. apply Hset.
  - intros thr. unfold MP4TrackDemuxer_SkipToNextRandomAccessPoint.
    destruct (Skip_loop (S (samples_left (mIndex (set_mQueuedSample None t))))
                thr (mIndex (set_mQueuedSample None t)) 0)
      as [[found parsed] x'].
    destruct found; simpl snd; apply Hset.
Qed.

(** ** Keeping the index up to date *)

(** X17.  EnsureUpToDateIndex asks the resource only while a re-index is
    due.  When the resource fails to answer, nothing changes and the
    re-index stays due, so the next call asks again.  When it answers, the
    index is updated with the ranges given and later calls change nothing,
    until NotifyDataArrived makes a re-index due again. *)
Theorem EnsureUpToDateIndex_retries_until_updated
  (c1 c2 : nsresult * list MediaByteRange) (t : TrackDemuxer) :
  (mNeedReIndex t = false ->
   MP4TrackDemuxer_EnsureUpToDateIndex c1 t = t) /\
  (NS_FAILED (fst c1) = true ->
   MP4TrackDemuxer_EnsureUpToDateIndex c1 t = t) /\
  (mNeedReIndex t = true ->
   NS_FAILED (fst c1) = false ->
   mIndex (MP4TrackDemuxer_EnsureUpToDateIndex c1 t)
     = UpdateMoofIndex (snd c1) (mIndex t) /\
   mNeedReIndex (MP4TrackDemuxer_EnsureUpToDateIndex c1 t) = false) /\
  (NS_FAILED (fst c1) = false ->
   MP4TrackDemuxer_EnsureUpToDateIndex c2
     (MP4TrackDemuxer_EnsureUpToDateIndex c1 t)
     = MP4TrackDemuxer_EnsureUpToDateIndex c1 t) /\
  (NS_FAILED (fst c1) = false ->
   mIndex (MP4TrackDemuxer_EnsureUpToDateIndex c1
             (MP4TrackDemuxer_NotifyDataArrived t))
     = UpdateMoofIndex (snd c1) (mIndex t)).
Proof.
  unfold MP4TrackDemuxer_EnsureUpToDateIndex,
    MP4TrackDemuxer_NotifyDataArrived.
  split; [|split; [|split; [|split]]].
  - intros H. rewrite H. reflexivity.
  - intros H. rewrite H. destruct (negb (mNeedReIndex t)); reflexivity.
  - intros H1 H2. rewrite H1, H2. simpl. split; reflexivity.
  - intros H. rewrite H.
    destruct (mNeedReIndex t) eqn:Hn; simpl; [reflexivity|].
    rewrite Hn. reflexivity.
  - intros H. simpl. rewrite H. reflexivity.
Qed.

(** ** UpdateSamples *)

Lemma UpdateSamples_one_keeps (i : TrackInfo) (s : RawSample) :
  mTime (UpdateSamples_one i s) = mTime s /\
  mKeyframe (UpdateSamples_one i s) = mKeyframe s /\
  valid (mCrypto (UpdateSamples_one i s)) = valid (mCrypto s) /\
  (info_type i = kVideoTrack ->
   mExtraData (UpdateSamples_one i s) = info_mExtraData i) /\
  (info_type i <> kVideoTrack ->
   mExtraData (UpdateSamples_one i s) = mExtraData s) /\
  (valid (mCrypto s) = true ->
   key (mCrypto (UpdateSamples_one i s))
     = key (mCrypto s) ++ key (info_mCrypto i)) /\
  (valid (mCrypto s) = false ->
   mCrypto (UpdateSamples_one i s) = mCrypto s).
Proof.
  unfold UpdateSamples_one, GetAsVideoInfo.
  destruct (valid (mCrypto s)) eqn:Hv; destruct (info_type i); simpl;
    repeat split; try reflexivity; try congruence;
    try (intros X; discriminate X);
    try (intros X; exfalso; apply X; reflexivity).
Qed.

(** X18.  UpdateSamples keeps the number, the order, the times and the
    keyframe flags of the samples.  On a video track every sample gets the
    track's extra data, on any other track none is touched; an encrypted
    sample gets the track's key appended to its own, a clear one keeps its
    crypto data.  The next keyframe time is asked of the iterator again
    exactly when none was known or the last sample has reached it;
    otherwise the demuxer is left as it was. *)
Theorem UpdateSamples_rewrites_in_place (l l' : list RawSample)
  (t t' : TrackDemuxer) :
  MP4TrackDemuxer_UpdateSamples l t = Some (l', t') ->
  map mTime l' = map mTime l /\
  map mKeyframe l' = map mKeyframe l /\
  (forall k s, nth_error l k = Some s ->
     exists s', nth_error l' k = Some s' /\
       (info_type (mInfo t) = kVideoTrack ->
        mExtraData s' = info_mExtraData (mInfo t)) /\
       (info_type (mInfo t) <> kVideoTrack -> mExtraData s' = mExtraData s) /\
       (valid (mCrypto s) = true ->
        key (mCrypto s') = key (mCrypto s) ++ key (info_mCrypto (mInfo t))) /\
       (valid (mCrypto s) = false -> mCrypto s' = mCrypto s)) /\
  match mNextKeyframeTime t with
  | None => t' = MP4TrackDemuxer_SetNextKeyFrameTime t
  | Some next =>
      exists lastSample,
        last (map Some l) None = Some lastSample /\
        t' = if (next <=? mTime lastSample)%Z
             then MP4TrackDemuxer_SetNextKeyFrameTime t
             else t
  end.
Proof.
  intros E.
  assert (Hl' : l' = map (UpdateSamples_one (mInfo t)) l).
  { unfold MP4TrackDemuxer_UpdateSamples in E.
    destruct (mNextKeyframeTime t); [|inversion E; reflexivity].
    destruct (last _ _) as [r|]; [|discriminate E].
    destruct (_ <=? _)%Z; inversion E; reflexivity. }
  split.
  { rewrite Hl', map_map. apply map_ext. intros s.
    apply (UpdateSamples_one_keeps (mInfo t) s). }
  split.
  { rewrite Hl', map_map. apply map_ext. intros s.
    apply (UpdateSamples_one_keeps (mInfo t) s). }
  split.
  { intros k s Hk. exists (UpdateSamples_one (mInfo t) s). split.
    - rewrite Hl'. apply map_nth_error. exact Hk.
    - destruct (UpdateSamples_one_keeps (mInfo t) s)
        as (_ & _ & _ & K4 & K5 & K6 & K7).
      repeat split; assumption. }
  unfold MP4TrackDemuxer_UpdateSamples in E.
  destruct (mNextKeyframeTime t) as [next|]; [|inversion E; reflexivity].
  assert (Hlast : forall r,
             last (map Some (map (UpdateSamples_one (mInfo t)) l)) None
               = Some r ->
             exists r0, last (map Some l) None = Some r0 /\
                        r = UpdateSamples_one (mInfo t) r0).
  { clear. induction l as [|a l IH]; intros r Hr; [discriminate Hr|].
    destruct l as [|b l].
    - simpl in Hr. inversion Hr. exists a. split; reflexivity.
    - apply IH. exact Hr. }
  destruct (last (map Some (map (UpdateSamples_one (mInfo t)) l)) None)
    as [r|] eqn:Er; [|discriminate E].
  destruct (Hlast r eq_refl) as (r0 & Hr0 & ->).
  exists r0. split; [exact Hr0|].
  destruct (UpdateSamples_one_keeps (mInfo t) r0) as (K1 & _).
  rewrite K1 in E.
  destruct (next <=? mTime r0)%Z; inversion E; reflexivity.
Qed.

(** ** MP4Demuxer *)

(** X19.  NotifyDataRemoved does what NotifyDataArrived does: every track
    demuxer handed out, and no other, has a re-index made due; its
    position, its iterator, its queued sample and its next keyframe time
    stay as they are, and its next EnsureUpToDateIndex that the resource
    answers updates the index with the ranges given. *)
Theorem NotifyData_marks_every_track (dm : @MP4Demuxer X) :
  MP4Demuxer_NotifyDataRemoved dm = MP4Demuxer_NotifyDataArrived dm /\
  mMetadata (MP4Demuxer_NotifyDataArrived dm) = mMetadata dm /\
  length (mDemuxers (MP4Demuxer_NotifyDataArrived dm))
    = length (mDemuxers dm) /\
  forall (k : nat) (t : TrackDemuxer),
    nth_error (mDemuxers dm) k = Some t ->
    exists t',
      nth_error (mDemuxers (MP4Demuxer_NotifyDataArrived dm)) k = Some t' /\
      mNeedReIndex t' = true /\
      mIndex t' = mIndex t /\
      mQueuedSample t' = mQueuedSample t /\
      mNextKeyframeTime t' = mNextKeyframeTime t /\
      forall c, NS_FAILED (fst c) = false ->
        mIndex (MP4TrackDemuxer_EnsureUpToDateIndex c t')
          = UpdateMoofIndex (snd c) (mIndex t).
Proof.
  split; [reflexivity|]. split; [reflexivity|].
  split; [simpl; apply length_map|].
  intros k t Hk. exists (MP4TrackDemuxer_NotifyDataArrived t).
  split; [simpl; apply map_nth_error; exact Hk|].
  repeat split.
  intros c Hc. unfold MP4TrackDemuxer_EnsureUpToDateIndex. simpl.
  rewrite Hc. reflexivity.
Qed.

(** X20.  GetTrackDemuxer hands out a track demuxer or changes nothing.  A
    track number at or beyond the number of tracks of the type gives null,
    and so does a track without info or without a readable index; the
    demuxer is then as before.  Otherwise the new track demuxer is appended
    to those handed out before, which stay as they are, and is the one at
    the position handed back; it has the track's info, nothing queued, and
    a re-index due exactly when the resource did not answer. *)
Theorem GetTrackDemuxer_registers_or_changes_nothing (aType : TrackType)
  (aTrackNumber : Z) (cached : nsresult * list MediaByteRange)
  (dm : @MP4Demuxer X) (md : MP4Metadata) :
  mMetadata dm = Some md ->
  exists (r : option nat) (dm' : MP4Demuxer),
    MP4Demuxer_GetTrackDemuxer aType aTrackNumber cached dm = Some (r, dm') /\
    mMetadata dm' = mMetadata dm /\
    ((GetNumberTracks md aType <= aTrackNumber)%Z -> r = None) /\
    (r = None -> dm' = dm) /\
    (forall k, r = Some k ->
       k = length (mDemuxers dm) /\
       (aTrackNumber < GetNumberTracks md aType)%Z /\
       exists info indices e,
         GetTrackInfo md aType aTrackNumber = Some info /\
         ReadTrackIndex md (mTrackId info) = Some indices /\
         mDemuxers dm' = mDemuxers dm ++ [e] /\
         nth_error (mDemuxers dm') k = Some e /\
         mInfo e = info /\
         mQueuedSample e = None /\
         mNeedReIndex e = NS_FAILED (fst cached)).
Proof.
  intros Hmd. unfold MP4Demuxer_GetTrackDemuxer. rewrite Hmd.
  destruct (GetNumberTracks md aType <=? aTrackNumber)%Z eqn:Hle.
  { exists None, dm. split; [reflexivity|]. split; [exact Hmd|].
    split; [intros _; reflexivity|]. split; [intros _; reflexivity|].
    intros k X0. discriminate X0. }
  apply Z.leb_gt in Hle.
  destruct (GetTrackInfo md aType aTrackNumber) as [info|] eqn:Hi.
  2:{ exists None, dm. split; [reflexivity|]. split; [exact Hmd|].
      split; [intros _; reflexivity|]. split; [intros _; reflexivity|].
      intros k X0. discriminate X0. }
  destruct (ReadTrackIndex md (mTrackId info)) as [indices|] eqn:Hr.
  2:{ exists None, dm. split; [reflexivity|]. split; [exact Hmd|].
      split; [intros _; reflexivity|]. split; [intros _; reflexivity|].
      intros k X0. discriminate X0. }
  eexists _, _. split; [reflexivity|]. split; [reflexivity|].
  split; [intros X0; lia|]. split; [intros X0; discriminate X0|].
  intros k Hk. injection Hk as <-.
  split; [reflexivity|]. split; [exact Hle|].
  exists info, indices, (MP4TrackDemuxer_new info indices cached).
  split; [reflexivity|]. split; [exact Hr|]. split; [reflexivity|].
  split.
  { simpl. rewrite nth_error_app2 by lia. rewrite Nat.sub_diag. reflexivity. }
  unfold MP4TrackDemuxer_new, MP4TrackDemuxer_EnsureUpToDateIndex. simpl.
  destruct (NS_FAILED (fst cached)); repeat split; reflexivity.
Qed.

Lemma fold_left_app_concat (ps : list PsshInfo) (acc : list nat) :
  fold_left (fun a p => a ++ data p) ps acc = acc ++ concat (map data ps).
Proof.
  revert acc. induction ps as [|p ps IH]; intros acc; simpl.
  - rewrite app_nil_r. reflexivity.
  - rewrite IH, <- app_assoc. reflexivity.
Qed.

(** X21.  GetCrypto gives null when the file's crypto data is not valid or
    when all its pssh boxes together hold no byte; otherwise it gives the
    bytes of the pssh boxes, concatenated in their order, as init data of
    type "cenc". *)
Theorem GetCrypto_concatenates_pssh (dm : @MP4Demuxer X) (md : MP4Metadata) :
  mMetadata dm = Some md ->
  MP4Demuxer_GetCrypto dm =
    Some (if file_valid (Crypto_ md)
          then match concat (map data (pssh (Crypto_ md))) with
               | [] => None
               | b :: bs => Some ("cenc"%string, b :: bs)
               end
          else None).
Proof.
  intros Hmd. unfold MP4Demuxer_GetCrypto. rewrite Hmd.
  destruct (file_valid (Crypto_ md)); simpl; [|reflexivity].
  rewrite fold_left_app_concat. simpl.
  destruct (concat (map data (pssh (Crypto_ md)))); reflexivity.
Qed.

(** X22.  Init is resolved, with NS_OK, exactly when the metadata is
    complete, could be read, and holds at least one audio or video track;
    in every other case it is rejected with DEMUXER_ERROR.  When it is
    resolved, HasTrackType holds for audio or for video, and no track
    demuxer was added or lost. *)
Theorem Init_resolves_only_with_a_track (complete : bool)
  (initData : option MediaByteBuffer) (parse : MediaByteBuffer -> MP4Metadata)
  (dm : @MP4Demuxer X) :
  (fst (MP4Demuxer_Init complete initData parse dm) = Resolved NS_OK <->
   complete = true /\
   exists buf, initData = Some buf /\
     (GetNumberTracks (parse buf) kAudioTrack <> 0%Z \/
      GetNumberTracks (parse buf) kVideoTrack <> 0%Z)) /\
  (fst (MP4Demuxer_Init complete initData parse dm) = Resolved NS_OK \/
   fst (MP4Demuxer_Init complete initData parse dm) = Rejected DEMUXER_ERROR) /\
  (fst (MP4Demuxer_Init complete initData parse dm) = Resolved NS_OK ->
   (MP4Demuxer_HasTrackType kAudioTrack
      (snd (MP4Demuxer_Init complete initData parse dm)) = Some true \/
    MP4Demuxer_HasTrackType kVideoTrack
      (snd (MP4Demuxer_Init complete initData parse dm)) = Some true)) /\
  mDemuxers (snd (MP4Demuxer_Init complete initData parse dm)) = mDemuxers dm.
Proof.
  unfold MP4Demuxer_Init, MP4Demuxer_HasTrackType, MP4Demuxer_GetNumberTracks.
  destruct complete; simpl.
  2:{ split; [split; [intros X0; discriminate X0
                     | intros [X0 _]; discriminate X0]|].
      split; [right; reflexivity|].
      split; [intros X0; discriminate X0 | reflexivity]. }
  destruct initData as [buf|]; simpl.
  2:{ split; [split; [intros X0; discriminate X0
                     | intros [_ [b [X0 _]]]; discriminate X0]|].
      split; [right; reflexivity|].
      split; [intros X0; discriminate X0 | reflexivity]. }
  destruct (GetNumberTracks (parse buf) kAudioTrack =? 0)%Z eqn:Ha;
    destruct (GetNumberTracks (parse buf) kVideoTrack =? 0)%Z eqn:Hv; simpl.
  - apply Z.eqb_eq in Ha. apply Z.eqb_eq in Hv.
    split; [split; [intros X0; discriminate X0|]|].
    { intros [_ [b [X0 [H|H]]]]; injection X0 as <-; contradiction. }
    split; [right; reflexivity|].
    split; [intros X0; discriminate X0 | reflexivity].
  - split; [split; [intros _ | intros _; reflexivity]|].
    { split; [reflexivity|]. exists buf. split; [reflexivity|].
      right. apply Z.eqb_neq. exact Hv. }
    split; [left; reflexivity|].
    split; [intros _; right; rewrite Hv; reflexivity | reflexivity].
  - split; [split; [intros _ | intros _; reflexivity]|].
    { split; [reflexivity|]. exists buf. split; [reflexivity|].
      left. apply Z.eqb_neq. exact Ha. }
    split; [left; reflexivity|].
    split; [intros _; left; rewrite Ha; reflexivity | reflexivity].
  - split; [split; [intros _ | intros _; reflexivity]|].
    { split; [reflexivity|]. exists buf. split; [reflexivity|].
      left. apply Z.eqb_neq. exact Ha. }
    split; [left; reflexivity|].
    split; [intros _; left; rewrite Ha; reflexivity | reflexivity].
Qed.

End MP4Properties.

(** * The further statements on the scripted decoder and the track in memory *)



Lemma Select_twice_witness :
  exists (m' : SharedDecoderManager) (o : list Action),
    SharedDecoderManager_Select proxyB [EvDrainComplete]
      (holding queued_drain None (Some proxyA) true) = Ok (tt, m', o) /\
    SharedDecoderManager_Select proxyB [] m' = Ok (tt, m', []).
Proof.
  destruct (@Select_twice Scripted Stock Scripted_decoder Stock_pdm
              proxyB [EvDrainComplete]
              (holding queued_drain None (Some proxyA) true)
              (@holding_callback_of_active _ _ _ _)
              (fun _ _ _ => eq_refl))
    as (m' & o & E & _ & _ & Hagain).
  exists m', o. split; [exact E | exact (Hagain [])].
Defined.

Lemma active_proxy_after_manager_Shutdown_witness :
  exists (m' : SharedDecoderManager) (o : list Action),
    SharedDecoderManager_Shutdown []
      (holding queued_drain None (Some proxyA) true) = Ok (tt, m', o) /\
    SharedDecoderProxy_Shutdown proxyA [EvDrainComplete] m' = Fault.
Proof.
  eexists _, _.
  refine ((fun E =>
             conj E
               (proj1 (proj2
                  (@active_proxy_after_manager_Shutdown
                     Scripted Stock Scripted_decoder proxyA []
                     (holding queued_drain None (Some proxyA) true) _ _
                     eq_refl E))
                  [EvDrainComplete])) _).
  vm_compute. reflexivity.
Defined.

Lemma hand_off_blocks_without_DrainComplete_witness :
  SharedDecoderManager_Select proxyB [EvOutput 1]
    (holding queued_drain None (Some proxyA) true) = Hang.
Proof.
  exact (proj1 (proj2 (proj2 (proj2
           (@hand_off_blocks_without_DrainComplete
              Scripted Stock Scripted_decoder proxyA proxyB queued_drain
              [EvOutput 1] (holding queued_drain None (Some proxyA) true)
              (@holding_callback_of_active _ _ _ _)
              eq_refl eq_refl eq_refl eq_refl eq_refl))))).
Defined.

Lemma InitDecoder_after_Recreate_inits_again_witness :
  exists (m' m'' : SharedDecoderManager) (o : list Action),
    SharedDecoderManager_Recreate 7
      (holding audio_init (Some queued_drain) (Some proxyA) true)
      = Ok (true, m', o) /\
    SharedDecoderManager_InitDecoder m' =
      Ok (FromHolder, m'', [ToDecoder RInit]).
Proof.
  assert (E : exists m' o,
             SharedDecoderManager_Recreate 7
               (holding audio_init (Some queued_drain) (Some proxyA) true)
               = Ok (true, m', o)).
  { eexists _, _. vm_compute. reflexivity. }
  destruct E as (m' & o & E).
  destruct (@InitDecoder_after_Recreate_inits_again
              Scripted Stock Scripted_decoder Stock_pdm 7
              (holding audio_init (Some queued_drain) (Some proxyA) true)
              m' o eq_refl E)
    as (p & d' & _ & _ & _ & Hi).
  exists m'. eexists _, o. split; [exact E | exact Hi].
Defined.

Lemma reachable_manager_is_consistent_witness :
  reachable released /\
  (mDecoder released <> None -> mPDM released <> None).
Proof.
  split; [exact released_reachable|].
  exact (proj2 (proj2 (@reachable_manager_is_consistent
                         Scripted Stock Scripted_decoder Stock_pdm released
                         released_reachable))).
Defined.


Lemma GetSamples_hands_back_the_first_n_witness :
  exists t',
    MP4TrackDemuxer_GetSamples 2 (NS_OK, []) four_samples =
      Some (Resolved
              (map (UpdateSamples_one video_info)
                 [clear_sample 0 true; clear_sample 10 false]), t').
Proof.
  destruct (@GetSamples_hands_back_the_first_n (list RawSample) ListIndex
              2%Z (NS_OK, []) four_samples (conj eq_refl eq_refl))
    as (t' & E & _).
  exists t'. exact E.
Defined.

Lemma GetSamples_edge_counts_witness :
  exists t',
    MP4TrackDemuxer_GetSamples (-1) (NS_OK, []) four_samples =
      Some (Resolved
              (map (UpdateSamples_one video_info) (mIndex four_samples)), t').
Proof.
  destruct (proj1 (proj2 (@GetSamples_edge_counts (list RawSample) ListIndex
                            (NS_OK, []) four_samples))
              (-1)%Z eq_refl ltac:(vm_compute; discriminate))
    as (t' & E & _).
  exists t'. exact E.
Defined.

Lemma Skip_stops_at_first_access_point_witness :
  exists t',
    MP4TrackDemuxer_SkipToNextRandomAccessPoint 5%Z four_samples =
      (Resolved 3%Z, t') /\
    mQueuedSample t' = Some (clear_sample 20 true).
Proof.
  destruct (proj1 (@Skip_stops_at_first_access_point (list RawSample)
                     ListIndex 5%Z four_samples)
              [clear_sample 0 true; clear_sample 10 false]
              (clear_sample 20 true) [clear_sample 30 false]
              eq_refl eq_refl eq_refl)
    as (t' & E & Hq & _).
  exists t'. split; [exact E | exact Hq].
Defined.

Lemma EnsureUpToDateIndex_retries_until_updated_witness :
  MP4TrackDemuxer_EnsureUpToDateIndex (NS_ERROR_FAILURE, [])
    (MP4TrackDemuxer_NotifyDataArrived four_samples)
    = MP4TrackDemuxer_NotifyDataArrived four_samples.
Proof.
  exact (proj1 (proj2 (@EnsureUpToDateIndex_retries_until_updated
                         (list RawSample) ListIndex
                         (NS_ERROR_FAILURE, []) (NS_OK, [])
                         (MP4TrackDemuxer_NotifyDataArrived four_samples)))
           eq_refl).
Defined.

Lemma UpdateSamples_rewrites_in_place_witness :
  exists (l' : list RawSample) (t' : MP4TrackDemuxer),
    MP4TrackDemuxer_UpdateSamples [clear_sample 0 true] four_samples
      = Some (l', t') /\
    map mTime l' = [0%Z].
Proof.
  eexists _, _.
  refine ((fun E =>
             conj E
               (proj1 (@UpdateSamples_rewrites_in_place (list RawSample)
                         ListIndex [clear_sample 0 true] _ four_samples _ E)))
            _).
  vm_compute. reflexivity.
Defined.

Lemma NotifyData_marks_every_track_witness :
  exists t',
    nth_error (mDemuxers (MP4Demuxer_NotifyDataRemoved opened)) 0 = Some t' /\
    mNeedReIndex t' = true.
Proof.
  destruct (proj2 (proj2 (proj2 (@NotifyData_marks_every_track
                                   (list RawSample) ListIndex opened)))
              0 four_samples eq_refl)
    as (t' & E & Hn & _).
  exists t'. split; [exact E | exact Hn].
Defined.

Lemma GetTrackDemuxer_registers_or_changes_nothing_witness :
  exists (r : option nat) (dm' : MP4Demuxer),
    MP4Demuxer_GetTrackDemuxer kVideoTrack 1 (NS_OK, []) opened
      = Some (r, dm') /\
    r = None /\ dm' = opened.
Proof.
  destruct (@GetTrackDemuxer_registers_or_changes_nothing (list RawSample)
              ListIndex kVideoTrack 1%Z (NS_OK, []) opened one_video_track
              eq_refl)
    as (r & dm' & E & _ & Hout & Hsame & _).
  exists r, dm'. split; [exact E|].
  assert (Hr : r = None) by (apply Hout; vm_compute; discriminate).
  split; [exact Hr | exact (Hsame Hr)].
Defined.

Lemma GetCrypto_concatenates_pssh_witness :
  MP4Demuxer_GetCrypto opened = Some (Some ("cenc"%string, [1; 2; 3])).
Proof.
  exact (@GetCrypto_concatenates_pssh (list RawSample) opened
           one_video_track eq_refl).
Defined.
